(** * svitlo-monitor: a shallow embedding of [app/svitlo_monitor.py]

    The monitor polls a power-outage schedule per queue, compares the
    today-or-future part of the fetched schedule with the cached one and
    sends a Telegram message when the schedule changed or was cancelled.

    Modelling decisions, all visible in the definitions below:
    - Python values produced by [json.loads] are the type [pyval]; Python's
      [None] and JSON's [null] are the same constructor [PNone], as in the
      program.  Numbers (ints and finite floats) are kept by their exact
      rational value, which is all that [==] and truthiness look at.
    - Exceptions are the explicit [Raise] outcome of [result]; the
      [try]/[except] blocks of the program are written out.
    - [datetime.now()] is read at five places of [check_and_alert], some of
      them once per item of a loop.  The environment gives the calendar
      date of every one of these reads ([clock]), so a call that runs over
      midnight is a call like any other.
    - The outside world is a record: the cache files, the list of actions
      performed (HTTP GET, sleep, cache read, cache write, Telegram POST)
      and the lines printed.  A cache file is addressed by the path
      [cache/<queue>.json]; which file a path names is the file system's
      business ([resolve]), and so is whether a write goes through
      ([storage]): it can be refused before the file is touched, or break
      off and leave a file that no longer decodes.
    - Message texts are kept structured (which template, and the values
      interpolated into it) instead of rendered to a string.
    - Strings are kept by their UTF-8 bytes.  [strptime] decodes them, and
      [\d] and [int] accept every decimal digit of Unicode 14, as CPython
      3.11 does.
    - [check_and_alert] is cut into its consecutive segments
      ([fetch_with_retry], [classify], [compare_with], [react]); of the
      endless loop of [main] one turn is modelled. *)

From Stdlib Require Import ZArith QArith String Ascii List Bool Lia.
From stdpp Require Import base option list gmap strings fin_maps.

Set Warnings "-register-all".

Local Open Scope string_scope.
Local Open Scope Z_scope.

(** ** Python values and the primitives the program applies to them *)

Module Py.

Inductive pyval :=
| PNone
| PBool (b : bool)
| PNum (q : Q)
| PStr (s : string)
| PList (l : list pyval)
| PDict (kvs : list (string * pyval)).

Inductive exn :=
| TypeError
| AttributeError
| ValueError
| JSONDecodeError
| OSError
| OverflowError.

Inductive result (A : Type) :=
| Ok (a : A)
| Raise (e : exn).
Arguments Ok {A} a.
Arguments Raise {A} e.

Definition rbind {A B} (r : result A) (k : A -> result B) : result B :=
  match r with
  | Ok a => k a
  | Raise e => Raise e
  end.

#[global] Instance result_ret : MRet result := fun _ a => Ok a.
#[global] Instance result_bind : MBind result := fun _ _ k r => rbind r k.

Fixpoint traverse {A B} (f : A -> result B) (l : list A) : result (list B) :=
  match l with
  | [] => Ok []
  | x :: l' => y ← f x; ys ← traverse f l'; Ok (y :: ys)
  end.

Fixpoint fold_loop {A S} (f : S -> A -> result S) (l : list A) (s : S) : result S :=
  match l with
  | [] => Ok s
  | x :: l' => s' ← f s x; fold_loop f l' s'
  end.

(** [bool(v)] *)
Definition truthy (v : pyval) : bool :=
  match v with
  | PNone => false
  | PBool b => b
  | PNum q => negb (Qeq_bool q 0)
  | PStr s => negb (String.eqb s "")
  | PList l => match l with [] => false | _ => true end
  | PDict kvs => match kvs with [] => false | _ => true end
  end.

(** [a or b] *)
Definition py_or (a b : pyval) : pyval := if truthy a then a else b.

(** [v is None] *)
Definition is_none (v : pyval) : bool :=
  match v with PNone => true | _ => false end.

Fixpoint assoc (k : string) (kvs : list (string * pyval)) : option pyval :=
  match kvs with
  | [] => None
  | (k', v) :: r => if String.eqb k k' then Some v else assoc k r
  end.

(** [v.get(key, default)]: only dicts have the method. *)
Definition get (v : pyval) (key : string) (default : pyval) : result pyval :=
  match v with
  | PDict kvs => Ok (match assoc key kvs with Some x => x | None => default end)
  | _ => Raise AttributeError
  end.

Fixpoint chars (s : string) : list pyval :=
  match s with
  | EmptyString => []
  | String c r => PStr (String c EmptyString) :: chars r
  end.

(** The items a [for x in v] loop visits: the elements of a list, the keys
    of a dict, the characters of a string; anything else is not iterable. *)
Definition iter (v : pyval) : result (list pyval) :=
  match v with
  | PList l => Ok l
  | PDict kvs => Ok (map (fun kv => PStr (fst kv)) kvs)
  | PStr s => Ok (chars s)
  | _ => Raise TypeError
  end.

Definition num_of_bool (b : bool) : Q := if b then 1%Q else 0%Q.

(** [a == b] as the comparison of containers applies it to their items:
    [bool] is a number, lists compare item by item, dicts compare by
    length and then key by key. *)
Fixpoint eqb (a b : pyval) {struct a} : bool :=
  match a, b with
  | PNone, PNone => true
  | PBool x, PBool y => Bool.eqb x y
  | PBool x, PNum q => Qeq_bool (num_of_bool x) q
  | PNum q, PBool y => Qeq_bool q (num_of_bool y)
  | PNum p, PNum q => Qeq_bool p q
  | PStr s, PStr t => String.eqb s t
  | PList xs, PList ys =>
      (fix go (xs ys : list pyval) {struct xs} : bool :=
         match xs, ys with
         | [], [] => true
         | x :: xs', y :: ys' => eqb x y && go xs' ys'
         | _, _ => false
         end) xs ys
  | PDict kvs, PDict kvs' =>
      Nat.eqb (length kvs) (length kvs') &&
      (fix go (l : list (string * pyval)) {struct l} : bool :=
         match l with
         | [] => true
         | (k, v) :: r =>
             match assoc k kvs' with
             | Some v' => eqb v v'
             | None => false
             end && go r
         end) kvs
  | _, _ => false
  end.

End Py.

Import Py.

(** ** Calendar dates and [datetime.strptime(s, "%d.%m.%Y").date()] *)

Module Date.

Record date := mkdate { year : Z; month : Z; day : Z }.

(** [a < b] on [datetime.date] *)
Definition ltb (a b : date) : bool :=
  (year a <? year b)
  || ((year a =? year b)
      && ((month a <? month b)
          || ((month a =? month b) && (day a <? day b)))).

(** [a >= b] *)
Definition geb (a b : date) : bool := negb (ltb a b).

Definition is_leap (y : Z) : bool :=
  ((y mod 4 =? 0) && negb (y mod 100 =? 0)) || (y mod 400 =? 0).

Definition days_in_month (y m : Z) : Z :=
  if m =? 2 then (if is_leap y then 29 else 28)
  else if (m =? 4) || (m =? 6) || (m =? 9) || (m =? 11) then 30
  else 31.

(** The constructor [datetime.date(y, m, d)] raises [ValueError] outside
    these bounds. *)
Definition valid (y m d : Z) : bool :=
  (1 <=? y) && (y <=? 9999) && (1 <=? m) && (m <=? 12)
  && (1 <=? d) && (d <=? days_in_month y m).

Definition byte (c : ascii) : Z := Z.of_N (N_of_ascii c).

(** The payload of a continuation byte [10xxxxxx]. *)
Definition continuation (c : ascii) : option Z :=
  let n := byte c in
  if (128 <=? n) && (n <? 192) then Some (n - 128) else None.

(** The code points of a string, from its UTF-8 bytes. *)
Fixpoint code_points (s : string) : option (list Z) :=
  match s with
  | EmptyString => Some []
  | String a r =>
      let n := byte a in
      if n <? 128 then
        match code_points r with Some cs => Some (n :: cs) | None => None end
      else if n <? 192 then None
      else if n <? 224 then
        match r with
        | String b r' =>
            match continuation b, code_points r' with
            | Some x, Some cs => Some ((n - 192) * 64 + x :: cs)
            | _, _ => None
            end
        | _ => None
        end
      else if n <? 240 then
        match r with
        | String b (String c r') =>
            match continuation b, continuation c, code_points r' with
            | Some x, Some y, Some cs => Some (((n - 224) * 64 + x) * 64 + y :: cs)
            | _, _, _ => None
            end
        | _ => None
        end
      else if n <? 248 then
        match r with
        | String b (String c (String d r')) =>
            match continuation b, continuation c, continuation d, code_points r' with
            | Some x, Some y, Some z, Some cs =>
                Some ((((n - 240) * 64 + x) * 64 + y) * 64 + z :: cs)
            | _, _, _, _ => None
            end
        | _ => None
        end
      else None
  end.

(** The code points of the digit zero of every decimal script (category
    [Nd]); each is followed by its digits one to nine. *)
Definition decimal_zeros : list Z :=
  [0x30; 0x660; 0x6f0; 0x7c0; 0x966; 0x9e6; 0xa66; 0xae6; 0xb66; 0xbe6; 0xc66;
   0xce6; 0xd66; 0xde6; 0xe50; 0xed0; 0xf20; 0x1040; 0x1090; 0x17e0; 0x1810;
   0x1946; 0x19d0; 0x1a80; 0x1a90; 0x1b50; 0x1bb0; 0x1c40; 0x1c50; 0xa620;
   0xa8d0; 0xa900; 0xa9d0; 0xa9f0; 0xaa50; 0xabf0; 0xff10; 0x104a0; 0x10d30;
   0x11066; 0x110f0; 0x11136; 0x111d0; 0x112f0; 0x11450; 0x114d0; 0x11650;
   0x116c0; 0x11730; 0x118e0; 0x11950; 0x11c50; 0x11d50; 0x11da0; 0x16a60;
   0x16ac0; 0x16b50; 0x1d7ce; 0x1d7d8; 0x1d7e2; 0x1d7ec; 0x1d7f6; 0x1e140;
   0x1e2f0; 0x1e950; 0x1fbf0].

(** [\d] in a pattern and the digits [int] accepts: the value of a decimal
    digit of any script. *)
Definition decimal (c : Z) : option Z :=
  match List.find (fun z => (z <=? c) && (c <? z + 10)) decimal_zeros with
  | Some z => Some (c - z)
  | None => None
  end.

(** The class [[lo-hi]] of ASCII digits. *)
Definition ascii_digit (lo hi : Z) (c : Z) : option Z :=
  if (48 + lo <=? c) && (c <=? 48 + hi) then Some (c - 48) else None.

(** Cut a string at its first dot. *)
Fixpoint cut_dot (s : list Z) : option (list Z * list Z) :=
  match s with
  | [] => None
  | c :: r =>
      if c =? 46 then Some ([], r)
      else match cut_dot r with
           | Some (a, b) => Some (c :: a, b)
           | None => None
           end
  end.

(** The directive [%d]: [3[0-1]|[1-2]\d|0[1-9]|[1-9]| [1-9]]. *)
Definition parse_day (s : list Z) : option Z :=
  match s with
  | [a] => ascii_digit 1 9 a
  | [a; b] =>
      if a =? 51 then
        match ascii_digit 0 1 b with Some y => Some (30 + y) | None => None end
      else if (a =? 49) || (a =? 50) then
        match decimal b with Some y => Some (10 * (a - 48) + y) | None => None end
      else if (a =? 48) || (a =? 32) then ascii_digit 1 9 b
      else None
  | _ => None
  end.

(** The directive [%m]: [1[0-2]|0[1-9]|[1-9]]. *)
Definition parse_month (s : list Z) : option Z :=
  match s with
  | [a] => ascii_digit 1 9 a
  | [a; b] =>
      if a =? 49 then
        match ascii_digit 0 2 b with Some y => Some (10 + y) | None => None end
      else if a =? 48 then ascii_digit 1 9 b
      else None
  | _ => None
  end.

(** The directive [%Y]: [\d\d\d\d], and nothing may follow. *)
Definition parse_year (s : list Z) : option Z :=
  match s with
  | [a; b; c; d] =>
      match decimal a, decimal b, decimal c, decimal d with
      | Some w, Some x, Some y, Some z => Some (1000 * w + 100 * x + 10 * y + z)
      | _, _, _, _ => None
      end
  | _ => None
  end.

(** [datetime.strptime(s, "%d.%m.%Y").date()] on a string; [None] stands
    for the [ValueError] it raises. *)
Definition parse (s : string) : option date :=
  match code_points s with
  | None => None
  | Some cs =>
      match cut_dot cs with
      | None => None
      | Some (ds, rest) =>
          match cut_dot rest with
          | None => None
          | Some (ms, ys) =>
              match parse_day ds, parse_month ms, parse_year ys with
              | Some d, Some m, Some y =>
                  if valid y m d then Some (mkdate y m d) else None
              | _, _, _ => None
              end
          end
      end
  end.

(** [strptime] applied to any value: a non-string argument is a
    [TypeError], a string that does not match is a [ValueError]. *)
Definition strptime (v : pyval) : result date :=
  match v with
  | PStr s => match parse s with Some d => Ok d | None => Raise ValueError end
  | _ => Raise TypeError
  end.

End Date.

(** ** The outside world: cache files, actions performed, lines printed *)

Module World.

(** One day of a "schedule changed" message: the values interpolated for
    the date and the approval time, and either the [from]/[to] pair of
    every outage or [None] for the "no outages" text. *)
Record part := mkpart {
  part_date : pyval;
  part_updated : pyval;
  part_outages : option (list (pyval * pyval))
}.

(** The two message templates of [check_and_alert]. *)
Inductive message :=
| MsgCancelled (queue : string) (display_name : option string) (today : Date.date)
| MsgChanged (queue : string) (display_name : option string) (parts : list part).

Inductive action :=
| HttpGet (url : string)
| Sleep (seconds : Z)
| CacheRead (queue : string)
| CacheWrite (queue : string) (data : pyval)
| TelegramPost (text : message).

(** The [print] calls of the program, one constructor per call site. *)
Inductive line :=
| LogTelegramError (status : Z)
| LogTelegramSent
| LogTelegramSendError
| LogRequestFailed
| LogCfBlockStatus (status : Z) (url : string)
| LogCfBlockNonJson
| LogCfBlockDecode
| LogRetry (queue : string) (n : nat)
| LogGivingUp (queue : string)
| LogIgnored (queue : string)
| LogCancelled (queue : string)
| LogChanged (queue : string)
| LogNoChange (queue : string)
| LogError (queue : string) (e : exn).

(** A file [cache/<queue>.json]: either it holds a JSON document, or
    opening or decoding it raises. *)
Inductive cache_file :=
| Stored (data : pyval)
| Unreadable (e : exn).

(** The files that exist, by the name the file system knows them under. *)
Record world := mkworld {
  cache : gmap string cache_file;
  actions : list action;
  stdout : list line
}.

Definition M (A : Type) : Type := world -> result A * world.

#[global] Instance M_ret : MRet M := fun _ a w => (Ok a, w).
#[global] Instance M_bind : MBind M := fun _ _ k m w =>
  match m w with
  | (Ok a, w') => k a w'
  | (Raise e, w') => (Raise e, w')
  end.

Definition lift {A} (r : result A) : M A := fun w => (r, w).

Definition act (a : action) : M unit := fun w =>
  (Ok tt, mkworld (cache w) (actions w ++ [a]) (stdout w)).

Definition print (l : line) : M unit := fun w =>
  (Ok tt, mkworld (cache w) (actions w) (stdout w ++ [l])).

(** [try: body except Exception as e: handler(e)] *)
Definition try_except {A} (body : M A) (handler : exn -> M A) : M A := fun w =>
  match body w with
  | (Ok a, w') => (Ok a, w')
  | (Raise e, w') => handler e w'
  end.

(** [time.sleep(seconds)] on an integer: a length that does not fit the
    nanosecond clock is an [OverflowError], a negative one a [ValueError]. *)
Definition sleep (seconds : Z) : M unit :=
  if (seconds <? -9223372036) || (9223372036 <? seconds) then lift (Raise OverflowError)
  else if seconds <? 0 then lift (Raise ValueError)
  else act (Sleep seconds).

(** What [requests.get] / [requests.post] hand back. *)
Record response := mkresponse {
  status_code : Z;
  content_type : option string;   (* r.headers.get("Content-Type") *)
  text : string;                  (* r.text *)
  json : option pyval             (* r.json(); None when it raises *)
}.

Inductive http_result :=
| TransportError
| Response (r : response).

Inductive telegram_result :=
| PostRaises
| PostStatus (status : Z).

(** The places where one call of [check_and_alert] reads
    [datetime.now()]. *)
Inductive clock_read :=
| AtCurrent                (* line 112, in [extract_relevant(current, queue)] *)
| AtLast                   (* line 112, in [extract_relevant(last, queue)] *)
| AtFilter (d : string)    (* line 166, for the key [d] of [last_relevant] *)
| AtMessage                (* line 170 *)
| AtScan (i : nat).        (* line 174, for the [i]-th item of [last_dates] *)

(** What happens to [os.makedirs], [open(path, "w")] and [json.dump]. *)
Inductive write_result :=
| Written                  (* the file holds the document *)
| Refused (e : exn)        (* raised before the file was opened: it is as it was *)
| Broken (e : exn).        (* raised after: the file is left cut short *)

Record env := mkenv {
  clock : clock_read -> Date.date;      (* datetime.now().date() at each read *)
  QUEUE_NAMES : gmap string string;
  http : nat -> http_result;            (* reply to the n-th GET of a call *)
  telegram : telegram_result;           (* reply to the POST of a call *)
  resolve : string -> string;           (* the file that a path names *)
  storage : string -> pyval -> write_result   (* writing a document to a path *)
}.

(** [os.path.exists(path)] *)
Definition path_exists (e : env) (path : string) : M bool := fun w =>
  (Ok (bool_decide (is_Some (cache w !! resolve e path))), w).

(** [open(path, "r")] and [json.load] *)
Definition read_json (e : env) (path : string) : M pyval := fun w =>
  match cache w !! resolve e path with
  | Some (Stored data) => (Ok data, w)
  | Some (Unreadable ex) => (Raise ex, w)
  | None => (Raise OSError, w)
  end.

(** [os.makedirs], [open(path, "w")] and [json.dump]; a file cut short is
    one that [json.load] cannot decode. *)
Definition write_json (e : env) (path : string) (data : pyval) : M unit := fun w =>
  match storage e path data with
  | Written =>
      (Ok tt, mkworld (<[resolve e path := Stored data]> (cache w)) (actions w) (stdout w))
  | Refused ex => (Raise ex, w)
  | Broken ex =>
      (Raise ex,
       mkworld (<[resolve e path := Unreadable JSONDecodeError]> (cache w))
         (actions w) (stdout w))
  end.

End World.

Import World.

(** ** TELEGRAM SENDER *)

(** The line [send_telegram] prints for a reply of the Telegram API. *)
Definition telegram_line (reply : telegram_result) : line :=
  match reply with
  | PostRaises => LogTelegramSendError
  | PostStatus code =>
      if negb (code =? 200) then LogTelegramError code else LogTelegramSent
  end.

Definition send_telegram (e : env) (text : message) : M unit :=
  act (TelegramPost text);;
  print (telegram_line (telegram e)).

(** ** API FETCHER *)

(** [needle in hay] on strings *)
Fixpoint contains (needle hay : string) : bool :=
  String.prefix needle hay ||
  match hay with
  | EmptyString => false
  | String _ r => contains needle r
  end.

Definition fetch_schedule (reply : http_result) (url : string) : M pyval :=
  act (HttpGet url);;
  match reply with
  | TransportError => print LogRequestFailed;; mret PNone
  | Response r =>
      if (status_code r =? 403) || (status_code r =? 503) then
        print (LogCfBlockStatus (status_code r) url);; mret PNone
      else
        let content_type := default "" (content_type r) in
        if negb (contains "application/json" content_type) then
          print LogCfBlockNonJson;; mret PNone
        else
          match json r with
          | Some v => mret v
          | None => print LogCfBlockDecode;; mret PNone
          end
  end.

(** ** CACHE HANDLING *)

(** [f"{CACHE_DIR}/{queue}.json"] *)
Definition cache_path (queue : string) : string :=
  String.append "cache/" (String.append queue ".json").

Definition load_last (e : env) (queue : string) : M pyval :=
  let path := cache_path queue in
  act (CacheRead queue);;
  found ← path_exists e path;
  if (found : bool) then read_json e path else mret PNone.

Definition save_current (e : env) (queue : string) (data : pyval) : M unit :=
  act (CacheWrite queue data);;
  write_json e (cache_path queue) data.

(** ** SIMPLIFY SCHEDULE DATA *)

Definition simplify (x : pyval) : result pyval :=
  sh ← get x "shutdownHours" PNone;
  f ← get x "from" PNone;
  t ← get x "to" PNone;
  st ← get x "status" PNone;
  Ok (PDict [("shutdownHours", sh); ("from", f); ("to", t); ("status", st)]).

(** One turn of the loop of [extract_relevant]. *)
Definition extract_day (today : Date.date) (queue : string)
    (acc : gmap string (list pyval)) (day : pyval) : result (gmap string (list pyval)) :=
  date_str ← get day "eventDate" PNone;
  match date_str with
  | PStr s =>
      match Date.parse s with
      | None => Ok acc                               (* except: continue *)
      | Some date_obj =>
          if Date.ltb date_obj today then Ok acc     (* continue *)
          else
            queues ← get day "queues" (PDict []);
            qdata ← get queues queue (PList []);
            xs ← iter qdata;
            simplified ← traverse simplify xs;
            Ok (<[s := simplified]> acc)
      end
  | _ => Ok acc                                      (* TypeError: continue *)
  end.

(** [today] is the date that the one clock read of the call (line 112)
    gave. *)
Definition extract_relevant (today : Date.date) (schedule : pyval) (queue : string)
    : result (gmap string (list pyval)) :=
  days ← iter (py_or schedule (PList []));
  fold_loop (extract_day today queue) days ∅.

(** ** MAIN CHECK FUNCTION *)

(** The retry loop [for attempt in range(3)]. *)
Fixpoint fetch_with_retry (e : env) (queue url : string) (attempts : list nat)
    (current : pyval) : M pyval :=
  match attempts with
  | [] => mret current
  | attempt :: rest =>
      current ← fetch_schedule (http e attempt) url;
      if negb (is_none current) then mret current       (* break *)
      else
        print (LogRetry queue (attempt + 1));;
        sleep 2;;
        fetch_with_retry e queue url rest current
  end.

(** The condition of the dict comprehension that removes past days from
    [last_relevant], [today] being the date read for the key. *)
Definition not_past (today : Date.date) (d : string) : bool :=
  match Date.parse d with
  | Some date_obj => Date.geb date_obj today
  | None => false
  end.

(** The comprehension itself: it reads the clock once per key, and raises
    if a key does not parse. *)
Definition drop_past (now : string -> Date.date) (m : gmap string (list pyval))
    : result (gmap string (list pyval)) :=
  if decide (map_Forall (fun d _ => is_Some (Date.parse d)) m)
  then Ok (filter (fun kv => not_past (now kv.1) kv.1 = true) m)
  else Raise ValueError.

(** [all(strptime(d).date() < now().date() for d in last_dates if d)]: the
    clock is read once per date that is tried, [i] counting the items; the
    scan stops at the first date that is not past; a value that is truthy
    and does not parse raises when the scan reaches it. *)
Fixpoint all_past (now : nat -> Date.date) (i : nat) (last_dates : list pyval)
    : result bool :=
  match last_dates with
  | [] => Ok true
  | d :: rest =>
      if truthy d then
        date_obj ← Date.strptime d;
        if Date.ltb date_obj (now i) then all_past now (S i) rest else Ok false
      else all_past now (S i) rest
  end.

(** [current_relevant == last_relevant] on dicts: same length, and every
    key of the first is a key of the second with an equal value. *)
Definition dict_eqb (a b : gmap string (list pyval)) : bool :=
  Nat.eqb (size a) (size b) &&
  bool_decide (map_Forall
    (fun k v => from_option (fun v' => Py.eqb (PList v) (PList v')) false (b !! k) = true) a).

(** The text of one outage in a "schedule changed" message. *)
Definition outage_line (x : pyval) : result (pyval * pyval) :=
  f ← get x "from" (PStr "?");
  t ← get x "to" (PStr "?");
  Ok (f, t).

(** The body of the loop [for day in current] that builds [parts]. *)
Definition build_part (queue : string) (day : pyval) : result part :=
  date ← get day "eventDate" (PStr "?");
  updated ← get day "scheduleApprovedSince" (PStr "?");
  queues ← get day "queues" (PDict []);
  qdata ← get queues queue (PList []);
  outages ← (if truthy qdata
             then xs ← iter qdata; ls ← traverse outage_line xs; Ok (Some ls)
             else Ok None);
  Ok (mkpart date updated outages).

(** [check_and_alert] from [# NEW DAY & empty schedule (ignore)] to the end
    of the [try] block: the four-way decision and its effects.  The date
    of the cancellation message is the one read at line 170. *)
Definition react (e : env) (queue : string) (current : pyval)
    (current_relevant last_relevant : gmap string (list pyval))
    (last_only_past : bool) : M unit :=
  if negb (truthy current) && last_only_past then
    print (LogIgnored queue);;
    save_current e queue current
  else if negb (truthy current) && negb last_only_past then
    send_telegram e (MsgCancelled queue (QUEUE_NAMES e !! queue) (clock e AtMessage));;
    save_current e queue current;;
    print (LogCancelled queue)
  else if negb (dict_eqb current_relevant last_relevant) then
    parts ← lift (days ← iter current; traverse (build_part queue) days);
    send_telegram e (MsgChanged queue (QUEUE_NAMES e !! queue) parts);;
    save_current e queue current;;
    print (LogChanged queue)
  else
    print (LogNoChange queue).

(** [check_and_alert] from the [or []] of [last = load_last(queue) or []]
    up to the decision, [loaded] being what [load_last] returned. *)
Definition compare_with (e : env) (queue : string) (current loaded : pyval) : M unit :=
  let last := py_or loaded (PList []) in
  current_relevant ← lift (extract_relevant (clock e AtCurrent) current queue);
  last_relevant ← lift (extract_relevant (clock e AtLast) last queue);
  last_relevant ← lift (drop_past (fun d => clock e (AtFilter d)) last_relevant);
  entries ← lift (iter (py_or last (PList [])));
  last_dates ← lift (traverse (fun d => get d "eventDate" PNone) entries);
  last_only_past ← lift (all_past (fun i => clock e (AtScan i)) 0 last_dates);
  react e queue current current_relevant last_relevant last_only_past.

(** [check_and_alert] once the retry loop has produced a [current] that is
    not [None]. *)
Definition classify (e : env) (queue : string) (current : pyval) : M unit :=
  loaded ← load_last e queue;
  compare_with e queue current loaded.

(** The handler [except Exception as e] of [check_and_alert]. *)
Definition on_error (queue : string) : exn -> M unit :=
  fun ex => print (LogError queue ex).

Definition check_and_alert (e : env) (queue url : string) : M unit :=
  try_except
    (current ← fetch_with_retry e queue url (seq 0 3) PNone;
     if is_none current then print (LogGivingUp queue)
     else classify e queue current)
    (on_error queue).

(** The world after one call. *)
Definition run (e : env) (queue url : string) (w : world) : world :=
  snd (check_and_alert e queue url w).

(** ** The vocabulary of the specification *)

Module Spec.

Definition is_dict (v : pyval) : bool :=
  match v with PDict _ => true | _ => false end.

(** The value of a field of an object, [PNone] when the key is absent. *)
Definition field (v : pyval) (key : string) : pyval :=
  match v with
  | PDict kvs => from_option id PNone (assoc key kvs)
  | _ => PNone
  end.

Definition event_date (day : pyval) : pyval := field day "eventDate".

(** The outage list of a queue in a day entry: the empty sequence if the
    queue key is absent in that day's [queues] map. *)
Definition queue_intervals (queue : string) (day : pyval) : list pyval :=
  match day with
  | PDict kvs =>
      match assoc "queues" kvs with
      | Some (PDict qs) =>
          match assoc queue qs with
          | Some (PList xs) => xs
          | _ => []
          end
      | _ => []
      end
  | _ => []
  end.

(** An interval projected to [{shutdownHours, from, to, status}]. *)
Definition projected (x : pyval) : pyval :=
  PDict [("shutdownHours", field x "shutdownHours"); ("from", field x "from");
         ("to", field x "to"); ("status", field x "status")].

Definition projection (queue : string) (day : pyval) : list pyval :=
  map projected (queue_intervals queue day).

(** The date string under which a day entry survives normalization: its
    [eventDate] parses as DD.MM.YYYY and is not strictly before [today]. *)
Definition surviving (today : Date.date) (day : pyval) : option string :=
  match event_date day with
  | PStr s =>
      match Date.parse s with
      | Some d => if Date.ltb d today then None else Some s
      | None => None
      end
  | _ => None
  end.

(** The [eventDate] of a day entry parses as DD.MM.YYYY. *)
Definition well_dated (day : pyval) : bool :=
  match event_date day with
  | PStr s => bool_decide (is_Some (Date.parse s))
  | _ => false
  end.

(** The [queues] of a day entry are typed as the data model has them for
    one queue: [queues], when present, is a mapping, and the entry of the
    queue, when present, is a sequence of objects. *)
Definition queues_ok (queue : string) (day : pyval) : bool :=
  match day with
  | PDict kvs =>
      match assoc "queues" kvs with
      | None => true
      | Some (PDict qs) =>
          match assoc queue qs with
          | None => true
          | Some (PList xs) => forallb is_dict xs
          | Some _ => false
          end
      | Some _ => false
      end
  | _ => false
  end.

(** A raw schedule as the data model types it: a sequence of day objects
    with typed [queues]. *)
Definition typed_schedule (queue : string) (schedule : pyval) : bool :=
  match schedule with
  | PList days => forallb (fun day => is_dict day && queues_ok queue day) days
  | _ => false
  end.

(** What normalization needs: a sequence of objects, with typed [queues]
    in the entries that survive. *)
Definition normalizable (today : Date.date) (queue : string) (schedule : pyval) : bool :=
  match schedule with
  | PList days =>
      forallb (fun day => is_dict day &&
                 (match surviving today day with
                  | Some _ => queues_ok queue day
                  | None => true
                  end)) days
  | _ => false
  end.


(** A day object whose [eventDate], when given, is a date strictly before
    [today]. *)
Definition past_entry (today : Date.date) (day : pyval) : bool :=
  is_dict day &&
  (negb (truthy (event_date day)) ||
   match event_date day with
   | PStr s => match Date.parse s with Some d => Date.ltb d today | None => false end
   | _ => false
   end).

(** The [eventDate] of a day entry is absent (or falsy) or parses. *)
Definition dated (day : pyval) : bool :=
  negb (truthy (event_date day)) || well_dated day.

(** The [eventDate] of a day entry is absent (or falsy) or a date strictly
    before [today]. *)
Definition past_or_undated (today : Date.date) (day : pyval) : bool :=
  negb (truthy (event_date day)) ||
  match event_date day with
  | PStr s => match Date.parse s with Some d => Date.ltb d today | None => false end
  | _ => false
  end.

(** One turn of normalization as the specification words it: a surviving
    entry puts its projected interval list under its date string. *)
Definition keep_day (today : Date.date) (queue : string)
    (acc : gmap string (list pyval)) (day : pyval) : gmap string (list pyval) :=
  match surviving today day with
  | Some s => <[s := projection queue day]> acc
  | None => acc
  end.

(** The file that the cache path of a queue names. *)
Definition file (e : env) (queue : string) : string := resolve e (cache_path queue).

(** The cached last schedule of a queue is the sequence [entries]; a queue
    never seen has the empty one. *)
Definition cached_last (e : env) (w : world) (queue : string) (entries : list pyval) : Prop :=
  cache w !! file e queue = Some (Stored (PList entries))
  \/ (cache w !! file e queue = None /\ entries = []).

(** The call reads the date [d] at every read of the clock: it does not
    run over midnight. *)
Definition steady (e : env) (d : Date.date) : Prop := forall r, clock e r = d.

(** The entries are past for the call: the [eventDate] of every entry that
    has one is before the date read when the cached schedule is normalized
    (line 112) and before every date read by the scan of line 174. *)
Definition all_behind (e : env) (entries : list pyval) : Prop :=
  forallb (past_entry (clock e AtLast)) entries = true /\
  forall i, forallb (past_entry (clock e (AtScan i))) entries = true.

(** The dates read by the comprehension of line 166 and by the scan of
    line 174. *)
Definition filter_clock (e : env) : string -> Date.date := fun d => clock e (AtFilter d).
Definition scan_clock (e : env) : nat -> Date.date := fun i => clock e (AtScan i).

(** What the comprehension of line 166 keeps of a mapping. *)
Definition refiltered (e : env) (m : gmap string (list pyval)) : gmap string (list pyval) :=
  filter (fun kv => not_past (filter_clock e kv.1) kv.1 = true) m.

(** The exception of [save_current(queue, data)], if it raises. *)
Definition save_raises (e : env) (queue : string) (data : pyval) : option exn :=
  match storage e (cache_path queue) data with
  | Written => None
  | Refused ex => Some ex
  | Broken ex => Some ex
  end.

(** What [save_current(queue, data)] leaves in the place of the file of
    the queue, [None] when it leaves the file as it was. *)
Definition save_leaves (e : env) (queue : string) (data : pyval) : option cache_file :=
  match storage e (cache_path queue) data with
  | Written => Some (Stored data)
  | Refused _ => None
  | Broken _ => Some (Unreadable JSONDecodeError)
  end.

(** The cache files after [save_current(queue, data)]. *)
Definition saved (e : env) (queue : string) (data : pyval)
    (files : gmap string cache_file) : gmap string cache_file :=
  match save_leaves e queue data with
  | Some c => <[file e queue := c]> files
  | None => files
  end.

(** What is printed from [save_current(queue, data)] on: the lines [next]
    of the program when the save returns, the line of the handler when it
    raises. *)
Definition after_save (e : env) (queue : string) (data : pyval) (next : list line)
    : list line :=
  match save_raises e queue data with
  | None => next
  | Some ex => [LogError queue ex]
  end.


(** A reply that passes every check of the fetcher and whose body is the
    JSON literal [null]. *)
Definition null_body (reply : http_result) : Prop :=
  exists r, reply = Response r /\
    status_code r <> 403 /\ status_code r <> 503 /\
    contains "application/json" (default "" (content_type r)) = true /\
    json r = Some PNone.



End Spec.

Import Spec.

(** ** What a run decided *)

Module Observe.

(** What a run decided, read off what it printed and did. *)
Inductive outcome :=
| Ignored
| Cancelled
| Changed
| Unchanged
| Failed (e : exn)
| GaveUp.

Definition line_outcome (l : line) : option outcome :=
  match l with
  | LogIgnored _ => Some Ignored
  | LogCancelled _ => Some Cancelled
  | LogChanged _ => Some Changed
  | LogNoChange _ => Some Unchanged
  | LogError _ e => Some (Failed e)
  | LogGivingUp _ => Some GaveUp
  | _ => None
  end.

Definition outcomes (ls : list line) : list outcome := omap line_outcome ls.

(** A notification, without the display name of the queue. *)
Inductive notice :=
| CancelledNotice (queue : string) (today : Date.date)
| ChangedNotice (queue : string) (parts : list part).

Definition action_notice (a : action) : option notice :=
  match a with
  | TelegramPost (MsgCancelled q _ d) => Some (CancelledNotice q d)
  | TelegramPost (MsgChanged q _ parts) => Some (ChangedNotice q parts)
  | _ => None
  end.

Definition notices (acts : list action) : list notice := omap action_notice acts.

Definition action_write (a : action) : option (string * pyval) :=
  match a with
  | CacheWrite q data => Some (q, data)
  | _ => None
  end.

(** The calls of [save_current] among the actions. *)
Definition cache_writes (acts : list action) : list (string * pyval) := omap action_write acts.

(** A world extended by some actions and lines, the file [f] replaced by
    [left] if it is given. *)
Definition extend (f : string) (left : option cache_file) (acts : list action)
    (logs : list line) (w : world) : world :=
  mkworld (match left with Some c => <[f := c]> (cache w) | None => cache w end)
    (actions w ++ acts) (stdout w ++ logs).

(** Two handled computations decide alike, from whatever worlds they
    start: they send the same notifications and call [save_current] alike,
    at most once and with [current]; and if the save goes alike for both
    ([alike]), they leave the same in the place of their files [f1] and
    [f2] and print the same outcomes. *)
Definition same_decision (queue : string) (current : pyval) (f1 f2 : string)
    (alike : Prop) (m1 m2 : M unit) : Prop :=
  exists left1 left2 acts1 acts2 logs1 logs2,
    (forall w, m1 w = (Ok tt, extend f1 left1 acts1 logs1 w)) /\
    (forall w, m2 w = (Ok tt, extend f2 left2 acts2 logs2 w)) /\
    notices acts1 = notices acts2 /\
    cache_writes acts1 = cache_writes acts2 /\
    (cache_writes acts1 = [] \/ cache_writes acts1 = [(queue, current)]) /\
    outcomes logs1 <> [] /\
    (alike -> left1 = left2 /\ outcomes logs1 = outcomes logs2).

End Observe.

Import Observe.

(** ** Sample schedules, replies and worlds *)

Module Sample.

Definition jan (n : Z) : Date.date := Date.mkdate 2025 1 n.

Definition interval (f t : string) : pyval :=
  PDict [("from", PStr f); ("to", PStr t)].

Definition day_entry (d q : string) (ivs : list pyval) : pyval :=
  PDict [("eventDate", PStr d); ("queues", PDict [(q, PList ivs)])].

(** Two entries for the same day, the later one with a longer outage. *)
Definition morning : pyval := day_entry "12.01.2025" "Q" [interval "10:00" "14:00"].
Definition revised : pyval := day_entry "12.01.2025" "Q" [interval "10:00" "15:00"].

(** An entry dated in ISO format, which [%d.%m.%Y] does not parse. *)
Definition iso_dated : pyval := day_entry "2025-01-12" "Q" [interval "10:00" "14:00"].

Definition yesterday_only : pyval :=
  PList [day_entry "10.01.2025" "Q" [interval "10:00" "14:00"]].

Definition json_reply (v : pyval) : http_result :=
  Response (mkresponse 200 (Some "application/json; charset=utf-8") "" (Some v)).


Definition forbidden : http_result :=
  Response (mkresponse 403 (Some "application/json") "[]" (Some (PList []))).

(** A working disk on which every path is a file of its own. *)
Definition plain : string -> string := fun path => path.
Definition writable : string -> pyval -> write_result := fun _ _ => Written.

(** The upstream serves [v]; the date is [d] for the whole call. *)
Definition serving (v : pyval) (d : Date.date) : env :=
  mkenv (fun _ => d) ∅ (fun _ => json_reply v) (PostStatus 200) plain writable.


Definition fresh : world := mkworld ∅ [] [].

Definition holding (last : pyval) : world := mkworld {["cache/Q.json" := Stored last]} [] [].

Definition unreadable : world :=
  mkworld {["cache/Q.json" := Unreadable JSONDecodeError]} [] [].

Definition renamed (v : pyval) (d : Date.date) : env :=
  mkenv (fun _ => d) {["Q" := "Center"]} (fun _ => json_reply v) PostRaises plain writable.

Definition busy (last : pyval) : world :=
  mkworld {["cache/Q.json" := Stored last; "cache/R.json" := Stored (PList [])]}
    [Sleep 5] [LogNoChange "R"].

End Sample.

(** * Further definitions: the rest of the program *)

(** ** Well-formed JSON values *)

Module Json.

Fixpoint distinct (ks : list string) : bool :=
  match ks with
  | [] => true
  | k :: r => negb (existsb (String.eqb k) r) && distinct r
  end.

(** Every object inside the value has pairwise distinct keys, as every
    value built by [json.loads] has. *)
Fixpoint unique_keys (v : pyval) : bool :=
  match v with
  | PList l => forallb unique_keys l
  | PDict kvs =>
      distinct (map fst kvs) && forallb (fun kv => unique_keys (snd kv)) kvs
  | _ => true
  end.

End Json.

(** ** The effects that go with the outcomes printed *)

Module Effects.

(** The save of [current] went through: the file holds [current]. *)
Definition save_done (e : env) (queue : string) (current : pyval)
    (left : option cache_file) : Prop :=
  storage e (cache_path queue) current = Written /\ left = Some (Stored current).

(** The save of [current] raised [ex] and left [left] in the place of the
    file: nothing when it was refused, a file that does not decode when it
    broke off. *)
Definition save_failed (e : env) (queue : string) (current : pyval) (ex : exn)
    (left : option cache_file) : Prop :=
  (storage e (cache_path queue) current = Refused ex /\ left = None)
  \/ (storage e (cache_path queue) current = Broken ex /\
      left = Some (Unreadable JSONDecodeError)).

(** The one message of a call: a change message for a fetched value that
    is true, the cancellation message, dated by the read of line 170, for
    one that is false. *)
Definition one_message (e : env) (queue : string) (current : pyval)
    (notes : list notice) : Prop :=
  if truthy current then exists parts, notes = [ChangedNotice queue parts]
  else notes = [CancelledNotice queue (clock e AtMessage)].

(** What a call that printed the outcomes [os] did: what it left in the
    place of the cache file of its queue ([left]), its calls of
    [save_current] ([writes]) and the notifications it sent ([notes]),
    [current] being what the retry loop returned. *)
Definition goes_with (e : env) (queue : string) (current : pyval)
    (os : list outcome) (left : option cache_file) (writes : list (string * pyval))
    (notes : list notice) : Prop :=
  match os with
  | [GaveUp] => current = PNone /\ writes = [] /\ left = None /\ notes = []
  | [Unchanged] => truthy current = true /\ writes = [] /\ left = None /\ notes = []
  | [Ignored] =>
      truthy current = false /\ current <> PNone /\ writes = [(queue, current)] /\
      save_done e queue current left /\ notes = []
  | [Cancelled] =>
      truthy current = false /\ current <> PNone /\ writes = [(queue, current)] /\
      save_done e queue current left /\ one_message e queue current notes
  | [Changed] =>
      truthy current = true /\ writes = [(queue, current)] /\
      save_done e queue current left /\ one_message e queue current notes
  | [Failed ex] =>
      current <> PNone /\
      ((writes = [] /\ left = None /\ notes = [])
       \/ (writes = [(queue, current)] /\ save_failed e queue current ex left /\
           one_message e queue current notes))
  | [Ignored; Failed ex] =>
      truthy current = false /\ current <> PNone /\ writes = [(queue, current)] /\
      save_failed e queue current ex left /\ notes = []
  | _ => False
  end.

(** The file of a queue after a call that left [left] in its place. *)
Definition file_after (left : option cache_file) (before : option cache_file)
    : option cache_file :=
  match left with
  | Some c => Some c
  | None => before
  end.

End Effects.

(** ** The parts of a change message, as the message lists them *)

Module Parts.

(** The value of a field of an object, ["?"] when the key is absent. *)
Definition shown (v : pyval) (key : string) : pyval :=
  match v with
  | PDict kvs => from_option id (PStr "?") (assoc key kvs)
  | _ => PStr "?"
  end.

(** The block of one day: its date, its approval time, and the [from] and
    [to] of every interval of the queue, or the no-outages text when the
    queue has none. *)
Definition day_part (queue : string) (day : pyval) : part :=
  mkpart (shown day "eventDate") (shown day "scheduleApprovedSince")
    (match queue_intervals queue day with
     | [] => None
     | xs => Some (map (fun x => (shown x "from", shown x "to")) xs)
     end).

(** The entry survives normalization. *)
Definition survives (today : Date.date) (day : pyval) : bool :=
  bool_decide (is_Some (surviving today day)).

End Parts.

(** ** MAIN LOOP: one turn of [while True] *)

Module Cycle.

(** What one turn of the loop meets: the configuration, the file system,
    and for the call made for each queue the dates it reads, the replies
    it gets and what the disk does to its write. *)
Record cycle_env := mkcycle {
  URLS : list (string * string);               (* URLS.items(), in order *)
  names : gmap string string;                  (* QUEUE_NAMES *)
  CHECK_INTERVAL : Z;
  clocks : string -> clock_read -> Date.date;
  replies : string -> nat -> http_result;
  telegram_replies : string -> telegram_result;
  files : string -> string;
  disk : string -> string -> pyval -> write_result
}.

Definition call_env (c : cycle_env) (queue : string) : env :=
  mkenv (clocks c queue) (names c) (replies c queue) (telegram_replies c queue)
    (files c) (disk c queue).

(** [for queue, url in URLS.items(): check_and_alert(queue, url); time.sleep(5)] *)
Fixpoint visit (c : cycle_env) (items : list (string * string)) : M unit :=
  match items with
  | [] => mret tt
  | (queue, url) :: rest =>
      check_and_alert (call_env c queue) queue url;;
      sleep 5;;
      visit c rest
  end.

(** The body of [while True] in [main]. *)
Definition poll_cycle (c : cycle_env) : M unit :=
  visit c (URLS c);;
  sleep (CHECK_INTERVAL c).

(** The actions a world has gained over an earlier one. *)
Definition new_actions (before after : world) : list action :=
  drop (length (actions before)) (actions after).

(** What the call for one queue does in a turn: its actions begin with the
    GET of the queue's URL, and hold at most one message and at most one
    call of [save_current], for the queue itself. *)
Definition own_segment (item : string * string) (seg : list action) : Prop :=
  (exists rest, seg = HttpGet item.2 :: rest) /\
  (length (notices seg) <= 1)%nat /\
  (exists data, cache_writes seg = [] \/ cache_writes seg = [(item.1, data)]).

(** The file of a queue in a turn. *)
Definition queue_file (c : cycle_env) (queue : string) : string :=
  files c (cache_path queue).

End Cycle.

(** ** CONFIGURATION *)

Module Config.

(** The exceptions that the module-level code lets through: they end the
    process before [main] starts. *)
Inductive startup_exn :=
| KeyError (key : string)
| StartupTypeError.

Inductive startup (A : Type) :=
| Started (a : A)
| Crashed (e : startup_exn).
Arguments Started {A} a.
Arguments Crashed {A} e.

(** [item[key]] for a string key: only a dict can be indexed by a string. *)
Definition subscript (item : pyval) (key : string) : startup pyval :=
  match item with
  | PDict kvs =>
      match assoc key kvs with
      | Some v => Started v
      | None => Crashed (KeyError key)
      end
  | _ => Crashed StartupTypeError
  end.

(** Lists and dicts cannot be dict keys. *)
Definition hashable (v : pyval) : bool :=
  match v with
  | PList _ | PDict _ => false
  | _ => true
  end.

(** A Python dict with JSON scalars as keys, in insertion order. *)
Fixpoint dict_set (k v : pyval) (d : list (pyval * pyval)) : list (pyval * pyval) :=
  match d with
  | [] => [(k, v)]
  | (k', v') :: r =>
      if Py.eqb k k' then (k', v) :: r else (k', v') :: dict_set k v r
  end.

Fixpoint dict_get (k : pyval) (d : list (pyval * pyval)) : option pyval :=
  match d with
  | [] => None
  | (k', v') :: r => if Py.eqb k k' then Some v' else dict_get k r
  end.

(** [{item['id']: item[field] for item in _config_data}] *)
Fixpoint comprehension (field : string) (items : list pyval)
    (acc : list (pyval * pyval)) : startup (list (pyval * pyval)) :=
  match items with
  | [] => Started acc
  | item :: rest =>
      match subscript item "id" with
      | Crashed ex => Crashed ex
      | Started k =>
          match subscript item field with
          | Crashed ex => Crashed ex
          | Started v =>
              if hashable k then comprehension field rest (dict_set k v acc)
              else Crashed StartupTypeError
          end
      end
  end.

(** Lines 9 to 20: [parsed] is what [json.loads(config_json)] returns,
    [None] when it raises; the result is [(URLS, QUEUE_NAMES)]. *)
Definition configure (parsed : option pyval)
    : startup (list (pyval * pyval) * list (pyval * pyval)) :=
  let _config_data := match parsed with Some v => v | None => PList [] end in
  match iter _config_data with
  | Raise _ => Crashed StartupTypeError
  | Ok items =>
      match comprehension "url" items [] with
      | Crashed ex => Crashed ex
      | Started URLS =>
          match comprehension "name" items [] with
          | Crashed ex => Crashed ex
          | Started QUEUE_NAMES => Started (URLS, QUEUE_NAMES)
          end
      end
  end.

(** A configuration item with everything the module-level code asks of
    it: an object with ["id"], ["url"] and ["name"], the id a scalar. *)
Definition complete (item : pyval) : bool :=
  match item with
  | PDict kvs =>
      match assoc "id" kvs, assoc "url" kvs, assoc "name" kvs with
      | Some k, Some _, Some _ => hashable k
      | _, _, _ => false
      end
  | _ => false
  end.

Definition item_id (item : pyval) : pyval := field item "id".

Definition string_id (item : pyval) : bool :=
  match item_id item with PStr _ => true | _ => false end.

(** The keys of a dict after one more assignment. *)
Definition key_add (k : pyval) (ks : list pyval) : list pyval :=
  if existsb (Py.eqb k) ks then ks else (ks ++ [k])%list.

End Config.

(** ** More samples *)

Module Sample2.

Import Sample Cycle.

Definition later : pyval := day_entry "14.01.2025" "Q" [interval "08:00" "12:00"].
Definition yesterday : pyval := day_entry "10.01.2025" "Q" [interval "10:00" "14:00"].
Definition today_entry : pyval := day_entry "11.01.2025" "Q" [interval "18:00" "22:00"].

(** The date 12.01.2025 with its year in Arabic-Indic digits (U+0660 to
    U+0669, two bytes each). *)
Definition arabic_indic_year : string :=
  String.append "12.01."
    (String "217" (String "162" (String "217" (String "160"
    (String "217" (String "162" (String "217" (String "165" EmptyString)))))))).

(** The same date with the second digit of its day in Arabic-Indic. *)
Definition arabic_indic_day : string :=
  String "1" (String "217" (String "162" ".01.2025")).

Definition eastern_dated : pyval := day_entry arabic_indic_year "Q" [interval "10:00" "14:00"].
Definition mixed_dated : pyval := day_entry arabic_indic_day "Q" [interval "16:00" "18:00"].

Definition error_body : pyval := PDict [("error", PStr "rate limited")].

(** Midnight falls between the two normalizations: the first read of the
    clock gives [d1], every later one [d2]. *)
Definition overnight (v : pyval) (d1 d2 : Date.date) : env :=
  mkenv (fun r => match r with AtCurrent => d1 | _ => d2 end) ∅
    (fun _ => json_reply v) (PostStatus 200) plain writable.

(** The cache directory cannot be written. *)
Definition read_only (v : pyval) (d : Date.date) : env :=
  mkenv (fun _ => d) ∅ (fun _ => json_reply v) (PostStatus 200) plain
    (fun _ _ => Refused OSError).

(** The write breaks off in the middle of the document. *)
Definition cut_short (v : pyval) (d : Date.date) : env :=
  mkenv (fun _ => d) ∅ (fun _ => json_reply v) (PostStatus 200) plain
    (fun _ _ => Broken ValueError).

(** Two queues, the second one blocked by the CDN. *)
Definition two_queues (interval : Z) : cycle_env :=
  mkcycle [("Q", "https://be-svitlo.oe.if.ua/q"); ("R", "https://be-svitlo.oe.if.ua/r")]
    ∅ interval (fun _ _ => jan 11)
    (fun queue _ => if String.eqb queue "Q" then json_reply (PList [morning]) else forbidden)
    (fun _ => PostStatus 200) plain (fun _ => writable).

Definition config_item (id name url : string) : pyval :=
  PDict [("id", PStr id); ("name", PStr name); ("url", PStr url)].

Definition config_twice : list pyval :=
  [config_item "4.2" "Old" "https://old"; config_item "5.1" "Other" "https://other";
   config_item "4.2" "New" "https://new"].

End Sample2.

(** * Lemmas and theorems *)

Example parse_ok : Date.parse "10.01.2025" = Some (Date.mkdate 2025 1 10).
Proof. reflexivity. Qed.
Example parse_short : Date.parse "1.1.2025" = Some (Date.mkdate 2025 1 1).
Proof. reflexivity. Qed.
Example parse_iso : Date.parse "2025-01-10" = None.
Proof. reflexivity. Qed.
Example parse_feb30 : Date.parse "30.02.2025" = None.
Proof. reflexivity. Qed.
Example parse_leap : Date.parse "29.02.2024" = Some (Date.mkdate 2024 2 29).
Proof. reflexivity. Qed.
Example parse_trailing : Date.parse "10.01.20255" = None.
Proof. reflexivity. Qed.
Example parse_padded : Date.parse " 5.01.2025" = Some (Date.mkdate 2025 1 5).
Proof. reflexivity. Qed.
Example parse_eastern :
  Date.parse Sample2.arabic_indic_year = Some (Date.mkdate 2025 1 12).
Proof. reflexivity. Qed.
Example parse_mixed :
  Date.parse Sample2.arabic_indic_day = Some (Date.mkdate 2025 1 12).
Proof. reflexivity. Qed.

Ltac unfold_m :=
  unfold send_telegram, load_last, save_current, path_exists, read_json, write_json,
    try_except, sleep, lift, act, print, mbind, mret, M_bind, M_ret,
    result_bind, result_ret, rbind in *.

Lemma fetch_schedule_frame (reply : http_result) (url : string) :
  exists v logs, forall w,
    fetch_schedule reply url w
    = (Ok v, mkworld (cache w) (actions w ++ [HttpGet url]) (stdout w ++ logs)).
Proof.
  unfold fetch_schedule. destruct reply as [|r].
  - exists PNone, [LogRequestFailed]. intros w. reflexivity.
  - destruct ((status_code r =? 403) || (status_code r =? 503)) eqn:Hs.
    + exists PNone, [LogCfBlockStatus (status_code r) url]. intros w.
      reflexivity.
    + destruct (contains "application/json" (default "" (content_type r))) eqn:Hc.
      * destruct (json r) as [v|] eqn:Hj.
        -- exists v, []. intros w. unfold_m. simpl. rewrite app_nil_r. reflexivity.
        -- exists PNone, [LogCfBlockDecode]. intros w. reflexivity.
      * exists PNone, [LogCfBlockNonJson]. intros w. reflexivity.
Qed.

Lemma fetch_with_retry_frame (e : env) (queue url : string) (attempts : list nat) (current : pyval) :
  exists v acts logs, forall w,
    fetch_with_retry e queue url attempts current w
    = (Ok v, mkworld (cache w) (actions w ++ acts) (stdout w ++ logs)).
Proof.
  revert current. induction attempts as [|a rest IH]; intros current.
  - exists current, [], []. intros [c a l]. simpl. rewrite !app_nil_r. reflexivity.
  - destruct (fetch_schedule_frame (http e a) url) as (v & logs & Hf).
    destruct (is_none v) eqn:Hv.
    + destruct (IH v) as (v' & acts' & logs' & Hr).
      exists v', ([HttpGet url; Sleep 2] ++ acts')%list,
        (logs ++ [LogRetry queue (a + 1)] ++ logs')%list.
      intros w. simpl. unfold mbind, M_bind at 1. rewrite Hf, Hv. simpl.
      unfold_m. simpl. rewrite Hr. simpl. rewrite <- !app_assoc. reflexivity.
    + exists v, [HttpGet url], logs. intros w. simpl. unfold mbind, M_bind at 1.
      rewrite Hf, Hv. reflexivity.
Qed.

Lemma fetch_with_retry_cache (e : env) (queue url : string) (attempts : list nat)
    (current : pyval) (w w1 : world) (r : result pyval) :
  fetch_with_retry e queue url attempts current w = (r, w1) -> cache w1 = cache w.
Proof.
  destruct (fetch_with_retry_frame e queue url attempts current) as (v & acts & logs & H).
  rewrite H. intros [= _ <-]. reflexivity.
Qed.

(** ** Normalization *)

Section Normalizer.

Variable today : Date.date.
Variable queue : string.

Lemma traverse_simplify (xs : list pyval) :
  forallb is_dict xs = true -> traverse simplify xs = Ok (map projected xs).
Proof.
  induction xs as [|x xs IH]; simpl; [reflexivity|].
  intros [Hx Hxs]%andb_prop. destruct x; try discriminate.
  simpl. rewrite (IH Hxs). reflexivity.
Qed.

Lemma extract_day_ok (acc : gmap string (list pyval)) (day : pyval) :
  is_dict day = true ->
  match surviving today day with Some _ => queues_ok queue day | None => true end = true ->
  extract_day today queue acc day = Ok (keep_day today queue acc day).
Proof.
  destruct day as [| | | | |kvs]; try discriminate. intros _.
  unfold keep_day, surviving, event_date, extract_day, projection, queue_intervals, queues_ok.
  simpl. destruct (assoc "eventDate" kvs) as [[| | |s| |]|]; simpl; try reflexivity.
  destruct (Date.parse s) as [d|]; simpl; [|reflexivity].
  destruct (Date.ltb d today); [reflexivity|].
  destruct (assoc "queues" kvs) as [[| | | | |qs]|]; simpl; try discriminate; [|reflexivity].
  destruct (assoc queue qs) as [[| | | |xs|]|]; simpl; try discriminate; [|reflexivity].
  intros Hxs. rewrite (traverse_simplify _ Hxs). reflexivity.
Qed.

Lemma fold_loop_ok (days : list pyval) (acc : gmap string (list pyval)) :
  normalizable today queue (PList days) = true ->
  fold_loop (extract_day today queue) days acc = Ok (foldl (keep_day today queue) acc days).
Proof.
  revert acc. induction days as [|day days IH]; intros acc; simpl; [reflexivity|].
  intros [[Hd Hq]%andb_prop Hrest]%andb_prop.
  rewrite (extract_day_ok acc day Hd Hq). simpl. apply IH, Hrest.
Qed.

Lemma extract_relevant_ok (days : list pyval) :
  normalizable today queue (PList days) = true ->
  extract_relevant today (PList days) queue = Ok (foldl (keep_day today queue) ∅ days).
Proof.
  intros H. unfold extract_relevant, py_or. destruct days as [|d days]; simpl.
  - reflexivity.
  - apply (fold_loop_ok (d :: days) ∅ H).
Qed.

End Normalizer.

Section NormalizerFacts.

Variable today : Date.date.
Variable queue : string.

Lemma surviving_inv (day : pyval) (s : string) :
  surviving today day = Some s ->
  event_date day = PStr s /\
  exists d, Date.parse s = Some d /\ Date.ltb d today = false.
Proof.
  unfold surviving. destruct (event_date day) as [| | |s'| |]; try discriminate.
  destruct (Date.parse s') as [d|] eqn:Hp; try discriminate.
  destruct (Date.ltb d today) eqn:Hl; try discriminate.
  intros [= <-]. eauto.
Qed.

Lemma keep_day_other (acc : gmap string (list pyval)) (day : pyval) (s : string) :
  event_date day <> PStr s -> keep_day today queue acc day !! s = acc !! s.
Proof.
  intros Hne. unfold keep_day. destruct (surviving today day) as [s'|] eqn:Hs; [|reflexivity].
  apply surviving_inv in Hs as [Hs _]. apply lookup_insert_ne. congruence.
Qed.

Lemma keep_days_other (days : list pyval) (acc : gmap string (list pyval)) (s : string) :
  (forall day, day ∈ days -> event_date day <> PStr s) ->
  foldl (keep_day today queue) acc days !! s = acc !! s.
Proof.
  revert acc. induction days as [|day days IH]; intros acc Hall; simpl; [reflexivity|].
  rewrite IH.
  - apply keep_day_other, Hall. left.
  - intros d Hd. apply Hall. right. exact Hd.
Qed.

Lemma keep_days_last (days : list pyval) (acc : gmap string (list pyval))
    (i : nat) (day : pyval) (s : string) :
  days !! i = Some day ->
  surviving today day = Some s ->
  (forall (j : nat) day', (i < j)%nat -> days !! j = Some day' -> event_date day' <> PStr s) ->
  foldl (keep_day today queue) acc days !! s = Some (projection queue day).
Proof.
  revert acc i. induction days as [|d days IH]; intros acc i Hi Hs Hlater; [discriminate|].
  destruct i as [|i]; simpl in *.
  - injection Hi as ->. rewrite keep_days_other.
    + unfold keep_day. rewrite Hs. apply lookup_insert_eq.
    + intros d' [j Hj]%list_elem_of_lookup. apply (Hlater (S j)); [lia | exact Hj].
  - apply (IH _ i Hi Hs). intros j d' Hlt Hj. apply (Hlater (S j)); [lia | exact Hj].
Qed.

Lemma keep_days_keys (days : list pyval) (acc : gmap string (list pyval))
    (k : string) (v : list pyval) :
  foldl (keep_day today queue) acc days !! k = Some v ->
  acc !! k = Some v \/
  exists day, day ∈ days /\ surviving today day = Some k /\ v = projection queue day.
Proof.
  revert acc. induction days as [|d days IH]; intros acc; simpl; [auto|].
  intros [H|(day & Hin & Hs & Hv)]%IH.
  - unfold keep_day in H. destruct (surviving today d) as [s|] eqn:Hs; [|auto].
    destruct (decide (s = k)) as [->|Hne].
    + rewrite lookup_insert_eq in H. injection H as <-. right. exists d.
      split; [left|auto].
    + rewrite lookup_insert_ne in H by exact Hne. auto.
  - right. exists day. split; [right; exact Hin|auto].
Qed.

Lemma well_dated_surviving (day : pyval) :
  well_dated day = false -> surviving today day = None.
Proof.
  unfold well_dated, surviving. destruct (event_date day); try reflexivity.
  destruct (Date.parse s); [|reflexivity]. intros H. exfalso.
  apply bool_decide_eq_false in H. apply H. eauto.
Qed.

Lemma keep_days_well_dated (days : list pyval) (acc : gmap string (list pyval)) :
  foldl (keep_day today queue) acc (List.filter well_dated days)
  = foldl (keep_day today queue) acc days.
Proof.
  revert acc. induction days as [|d days IH]; intros acc; simpl; [reflexivity|].
  destruct (well_dated d) eqn:Hd; simpl.
  - apply IH.
  - rewrite IH. unfold keep_day at 3. rewrite (well_dated_surviving d Hd). reflexivity.
Qed.

Lemma normalizable_filter (f : pyval -> bool) (days : list pyval) :
  normalizable today queue (PList days) = true ->
  normalizable today queue (PList (List.filter f days)) = true.
Proof.
  simpl. induction days as [|d days IH]; simpl; [reflexivity|].
  intros [Hd Hr]%andb_prop. destruct (f d); simpl; [rewrite Hd|]; auto.
Qed.

End NormalizerFacts.

Arguments extract_relevant : simpl never.
Arguments drop_past : simpl never.
Arguments all_past : simpl never.
Arguments react : simpl never.
Arguments py_or : simpl never.

(** ** The keys of a normalized mapping *)

Section NormalizerKeys.

Variable queue : string.

(** What one turn of the loop can do to the mapping. *)
Lemma extract_day_step (today : Date.date) (acc acc' : gmap string (list pyval)) (day : pyval) :
  extract_day today queue acc day = Ok acc' ->
  (acc' = acc /\ surviving today day = None)
  \/ (exists s v d, acc' = <[s := v]> acc /\ surviving today day = Some s /\
                    Date.parse s = Some d /\ Date.ltb d today = false).
Proof.
  unfold extract_day, surviving, event_date, field.
  destruct day as [| | | | |kvs]; try discriminate. simpl.
  destruct (assoc "eventDate" kvs) as [[| | |s| |]|]; simpl;
    try (intros [= <-]; left; split; reflexivity).
  destruct (Date.parse s) as [d|] eqn:Hp; [|intros [= <-]; left; split; reflexivity].
  destruct (Date.ltb d today) eqn:Hl; [intros [= <-]; left; split; reflexivity|].
  destruct (get _ queue _) as [qdata|]; simpl; [|discriminate].
  destruct (iter qdata) as [xs|]; simpl; [|discriminate].
  destruct (traverse simplify xs) as [simplified|]; simpl; [|discriminate].
  intros [= <-]. right. exists s, simplified, d. auto.
Qed.

Lemma fold_loop_keys (today : Date.date) (days : list pyval) (acc m : gmap string (list pyval)) :
  fold_loop (extract_day today queue) days acc = Ok m ->
  (forall k v, acc !! k = Some v ->
     exists d, Date.parse k = Some d /\ Date.ltb d today = false) ->
  forall k v, m !! k = Some v ->
    exists d, Date.parse k = Some d /\ Date.ltb d today = false.
Proof.
  revert acc. induction days as [|day days IH]; intros acc; simpl.
  - intros [= <-]. auto.
  - destruct (extract_day today queue acc day) as [acc'|] eqn:Hd; simpl; [|discriminate].
    intros Hm Hacc. apply (IH acc' Hm).
    apply extract_day_step in Hd as [[-> _]|(s & v & d & -> & _ & Hp & Hl)]; [exact Hacc|].
    intros k v' Hk. destruct (decide (s = k)) as [<-|Hne]; [eauto|].
    rewrite lookup_insert_ne in Hk by exact Hne. eauto.
Qed.

Lemma extracted_keys (today : Date.date) (schedule : pyval) (m : gmap string (list pyval)) :
  extract_relevant today schedule queue = Ok m ->
  forall k v, m !! k = Some v ->
    exists d, Date.parse k = Some d /\ Date.ltb d today = false.
Proof.
  intros H. unfold extract_relevant in H. destruct (iter _) as [days|]; [|discriminate].
  simpl in H. apply (fold_loop_keys today days ∅ m H). intros k v Hk.
  rewrite lookup_empty in Hk. discriminate.
Qed.

(** A list that normalizes holds objects only. *)
Lemma extract_relevant_dicts (today : Date.date) (days : list pyval)
    (m : gmap string (list pyval)) :
  extract_relevant today (PList days) queue = Ok m -> forallb is_dict days = true.
Proof.
  assert (G : forall ds acc, fold_loop (extract_day today queue) ds acc = Ok m ->
            forallb is_dict ds = true).
  { induction ds as [|day ds IH]; intros acc; simpl; [reflexivity|].
    destruct (extract_day today queue acc day) as [acc'|] eqn:Hd; simpl; [|discriminate].
    intros H. rewrite (IH acc' H), andb_true_r.
    destruct day; try discriminate Hd. reflexivity. }
  unfold extract_relevant, py_or. destruct days as [|d0 ds]; [reflexivity|].
  intros H. apply (G _ ∅). exact H.
Qed.

(** The comprehension of line 166 on a mapping whose keys parse: it does
    not raise, and keeps the keys that are not past at their own read of
    the clock. *)
Lemma drop_past_parsed (now : string -> Date.date) (m : gmap string (list pyval)) :
  (forall k v, m !! k = Some v -> is_Some (Date.parse k)) ->
  drop_past now m = Ok (filter (fun kv => not_past (now kv.1) kv.1 = true) m).
Proof.
  intros H. unfold drop_past. destruct (decide _) as [_|Hn]; [reflexivity|].
  exfalso. apply Hn. intros k v Hk. exact (H k v Hk).
Qed.

Lemma drop_past_extracted (now : string -> Date.date) (today : Date.date) (schedule : pyval)
    (m : gmap string (list pyval)) :
  extract_relevant today schedule queue = Ok m ->
  drop_past now m = Ok (filter (fun kv => not_past (now kv.1) kv.1 = true) m).
Proof.
  intros H. apply drop_past_parsed. intros k v Hk.
  destruct (extracted_keys today schedule m H k v Hk) as (d & -> & _). eauto.
Qed.

(** When the comprehension reads the date that the normalization read, it
    keeps everything. *)
Lemma refilter_same_day (now : string -> Date.date) (today : Date.date) (schedule : pyval)
    (m : gmap string (list pyval)) :
  extract_relevant today schedule queue = Ok m ->
  (forall k v, m !! k = Some v -> now k = today) ->
  filter (fun kv => not_past (now kv.1) kv.1 = true) m = m.
Proof.
  intros H Hnow. apply map_filter_id. intros k v Hk. simpl.
  destruct (extracted_keys today schedule m H k v Hk) as (d & Hp & Hl).
  unfold not_past, Date.geb. rewrite Hp, (Hnow k v Hk), Hl. reflexivity.
Qed.

End NormalizerKeys.

Section Classifier.

Variable e : env.
Variable queue : string.

Lemma traverse_event_dates (entries : list pyval) :
  forallb is_dict entries = true ->
  traverse (fun d => get d "eventDate" PNone) entries = Ok (map event_date entries).
Proof.
  induction entries as [|d entries IH]; simpl; [reflexivity|].
  intros [Hd Hr]%andb_prop. destruct d; try discriminate.
  simpl. rewrite (IH Hr). unfold event_date, field. simpl.
  destruct (assoc "eventDate" kvs); reflexivity.
Qed.

Lemma load_last_run (w : world) :
  load_last e queue w
  = (match cache w !! file e queue with
     | None => Ok PNone
     | Some (Stored data) => Ok data
     | Some (Unreadable ex) => Raise ex
     end,
     mkworld (cache w) (actions w ++ [CacheRead queue]) (stdout w)).
Proof.
  unfold file. unfold_m. simpl.
  destruct (cache w !! resolve e (cache_path queue)) as [[data|ex]|] eqn:Hc; simpl;
    rewrite ?Hc; reflexivity.
Qed.

(** The classification up to the scan of the cached dates: on a cached
    list that normalizes the call reaches the decision when the scan
    returns, and ends with the exception of the scan when it raises. *)
Lemma classify_scan (current : pyval) (entries : list pyval) (w : world)
    (mc ml : gmap string (list pyval)) :
  cached_last e w queue entries ->
  extract_relevant (clock e AtCurrent) current queue = Ok mc ->
  extract_relevant (clock e AtLast) (PList entries) queue = Ok ml ->
  classify e queue current w
  = let w' := mkworld (cache w) (actions w ++ [CacheRead queue]) (stdout w) in
    match all_past (scan_clock e) 0 (map event_date entries) with
    | Ok b => react e queue current mc (refiltered e ml) b w'
    | Raise ex => (Raise ex, w')
    end.
Proof.
  intros Hc Hmc Hml.
  pose proof (extract_relevant_dicts queue _ _ _ Hml) as Hd.
  assert (Hload : load_last e queue w
          = (Ok (if decide (cache w !! file e queue = None) then PNone else PList entries),
             mkworld (cache w) (actions w ++ [CacheRead queue]) (stdout w))).
  { rewrite load_last_run. destruct Hc as [Hc|[Hc ->]]; rewrite Hc; reflexivity. }
  unfold classify. unfold mbind at 1. unfold M_bind at 1. rewrite Hload.
  unfold compare_with.
  assert (Hlast : py_or (if decide (cache w !! file e queue = None) then PNone else PList entries)
                    (PList []) = PList entries).
  { destruct Hc as [Hc|[Hc ->]]; rewrite Hc; simpl; [|reflexivity].
    unfold py_or. destruct entries; reflexivity. }
  rewrite Hlast.
  assert (Hlast2 : py_or (PList entries) (PList []) = PList entries).
  { unfold py_or. destruct entries; reflexivity. }
  rewrite Hmc. unfold_m. simpl. rewrite Hml.
  rewrite (drop_past_extracted queue _ _ _ _ Hml).
  rewrite Hlast2. simpl. rewrite (traverse_event_dates _ Hd).
  fold (scan_clock e). fold (filter_clock e). fold (refiltered e ml).
  destruct (all_past (scan_clock e) 0 (map event_date entries)); reflexivity.
Qed.

Lemma classify_normal (current : pyval) (entries : list pyval) (w : world)
    (mc ml : gmap string (list pyval)) (b : bool) :
  cached_last e w queue entries ->
  extract_relevant (clock e AtCurrent) current queue = Ok mc ->
  extract_relevant (clock e AtLast) (PList entries) queue = Ok ml ->
  all_past (scan_clock e) 0 (map event_date entries) = Ok b ->
  classify e queue current w
  = react e queue current mc (refiltered e ml) b
      (mkworld (cache w) (actions w ++ [CacheRead queue]) (stdout w)).
Proof.
  intros Hc Hmc Hml Hb. rewrite (classify_scan _ _ _ _ _ Hc Hmc Hml), Hb. reflexivity.
Qed.

(** The same under the handler of [check_and_alert]. *)
Lemma handled_classify (current : pyval) (entries : list pyval) (w : world)
    (mc ml : gmap string (list pyval)) (b : bool) :
  cached_last e w queue entries ->
  extract_relevant (clock e AtCurrent) current queue = Ok mc ->
  extract_relevant (clock e AtLast) (PList entries) queue = Ok ml ->
  all_past (scan_clock e) 0 (map event_date entries) = Ok b ->
  try_except (classify e queue current) (on_error queue) w
  = try_except (react e queue current mc (refiltered e ml) b) (on_error queue)
      (mkworld (cache w) (actions w ++ [CacheRead queue]) (stdout w)).
Proof.
  intros Hc Hmc Hml Hb. unfold try_except.
  rewrite (classify_normal _ _ _ _ _ _ Hc Hmc Hml Hb). reflexivity.
Qed.


End Classifier.

Section Reactions.

Variable e : env.
Variable queue url : string.

Lemma run_split (w w1 : world) (current : pyval) :
  fetch_with_retry e queue url (seq 0 3) PNone w = (Ok current, w1) ->
  run e queue url w
  = snd (if is_none current then print (LogGivingUp queue) w1
         else try_except (classify e queue current) (on_error queue) w1).
Proof.
  intros H. unfold run, check_and_alert, try_except.
  unfold mbind at 1. unfold M_bind at 1. rewrite H.
  destruct (is_none current); [reflexivity|].
  unfold on_error. destruct (classify e queue current w1) as [[[]|ex] w2]; reflexivity.
Qed.

Lemma save_current_run (data : pyval) (w : world) :
  save_current e queue data w
  = (match save_raises e queue data with None => Ok tt | Some ex => Raise ex end,
     mkworld (saved e queue data (cache w)) (actions w ++ [CacheWrite queue data]) (stdout w)).
Proof.
  unfold save_raises, saved, save_leaves, file. unfold_m. simpl.
  destruct (storage e (cache_path queue) data); reflexivity.
Qed.

Lemma react_ignored (current : pyval) (mc ml : gmap string (list pyval)) (w : world) :
  truthy current = false ->
  try_except (react e queue current mc ml true) (on_error queue) w
  = (Ok tt, mkworld (saved e queue current (cache w))
              (actions w ++ [CacheWrite queue current])
              (stdout w ++ LogIgnored queue :: after_save e queue current [])).
Proof.
  intros H. unfold react. rewrite H. simpl.
  unfold try_except. unfold mbind, M_bind. unfold print at 1. rewrite save_current_run.
  unfold after_save, on_error, print. simpl.
  destruct (save_raises e queue current); simpl; rewrite <- ?app_assoc; reflexivity.
Qed.

Lemma react_cancelled (current : pyval) (mc ml : gmap string (list pyval)) (w : world) :
  truthy current = false ->
  try_except (react e queue current mc ml false) (on_error queue) w
  = (Ok tt, mkworld (saved e queue current (cache w))
              (actions w ++ [TelegramPost (MsgCancelled queue (QUEUE_NAMES e !! queue)
                                             (clock e AtMessage));
                             CacheWrite queue current])
              (stdout w ++ telegram_line (telegram e)
                 :: after_save e queue current [LogCancelled queue])).
Proof.
  intros H. unfold react. rewrite H. simpl.
  unfold try_except. unfold mbind, M_bind. unfold send_telegram, act, print.
  unfold mbind, M_bind. rewrite save_current_run.
  unfold after_save, on_error, print. simpl.
  destruct (save_raises e queue current); simpl; rewrite <- ?app_assoc; reflexivity.
Qed.

Lemma react_changed (current : pyval) (days : list pyval) (parts : list part)
    (mc ml : gmap string (list pyval)) (b : bool) (w : world) :
  truthy current = true ->
  dict_eqb mc ml = false ->
  iter current = Ok days ->
  traverse (build_part queue) days = Ok parts ->
  try_except (react e queue current mc ml b) (on_error queue) w
  = (Ok tt, mkworld (saved e queue current (cache w))
              (actions w ++ [TelegramPost (MsgChanged queue (QUEUE_NAMES e !! queue) parts);
                             CacheWrite queue current])
              (stdout w ++ telegram_line (telegram e)
                 :: after_save e queue current [LogChanged queue])).
Proof.
  intros H Hd Hi Hp. unfold react. rewrite H, Hd. simpl.
  unfold try_except. unfold mbind, M_bind. unfold lift. unfold mbind, result_bind, rbind.
  rewrite Hi, Hp. unfold send_telegram, act, print.
  unfold mbind, M_bind. rewrite save_current_run.
  unfold after_save, on_error, print. simpl.
  destruct (save_raises e queue current); simpl; rewrite <- ?app_assoc; reflexivity.
Qed.

Lemma react_unchanged (current : pyval) (mc ml : gmap string (list pyval)) (b : bool) (w : world) :
  truthy current = true ->
  dict_eqb mc ml = true ->
  try_except (react e queue current mc ml b) (on_error queue) w
  = (Ok tt, mkworld (cache w) (actions w) (stdout w ++ [LogNoChange queue])).
Proof. intros H Hd. unfold react. rewrite H, Hd. reflexivity. Qed.

End Reactions.

Section PastEntries.

Variable queue : string.

Lemma past_entry_surviving (today : Date.date) (day : pyval) :
  past_entry today day = true -> surviving today day = None.
Proof.
  unfold past_entry, surviving. intros [_ H]%andb_prop.
  destruct (event_date day) as [| | |s| |]; try reflexivity.
  destruct (Date.parse s) as [d|] eqn:Hp; [|reflexivity].
  destruct (Date.ltb d today); [reflexivity|].
  destruct s; [discriminate Hp|discriminate H].
Qed.

Lemma past_entries_normalizable (today : Date.date) (entries : list pyval) :
  forallb (past_entry today) entries = true ->
  normalizable today queue (PList entries) = true.
Proof.
  simpl. induction entries as [|d ds IH]; simpl; [reflexivity|].
  intros [Hd Hr]%andb_prop. rewrite (past_entry_surviving today d Hd), (IH Hr).
  unfold past_entry in Hd. apply andb_prop in Hd as [-> _]. reflexivity.
Qed.

Lemma past_entries_empty (today : Date.date) (entries : list pyval)
    (acc : gmap string (list pyval)) :
  forallb (past_entry today) entries = true ->
  foldl (keep_day today queue) acc entries = acc.
Proof.
  revert acc. induction entries as [|d ds IH]; intros acc; simpl; [reflexivity|].
  intros [Hd Hr]%andb_prop. unfold keep_day at 2.
  rewrite (past_entry_surviving today d Hd). apply IH, Hr.
Qed.

Lemma past_entries_extract (today : Date.date) (entries : list pyval) :
  forallb (past_entry today) entries = true ->
  extract_relevant today (PList entries) queue = Ok ∅.
Proof.
  intros Hp. rewrite (extract_relevant_ok _ _ _ (past_entries_normalizable today _ Hp)).
  f_equal. apply past_entries_empty, Hp.
Qed.

Lemma past_entries_all_past (now : nat -> Date.date) (i : nat) (entries : list pyval) :
  (forall j, forallb (past_entry (now j)) entries = true) ->
  all_past now i (map event_date entries) = Ok true.
Proof.
  revert i. induction entries as [|d ds IH]; intros i Hall; simpl; [reflexivity|].
  assert (Hr : forall j, forallb (past_entry (now j)) ds = true).
  { intros j. specialize (Hall j). simpl in Hall. apply andb_prop in Hall as [_ Hr]. exact Hr. }
  specialize (Hall i). simpl in Hall. apply andb_prop in Hall as [Hd _].
  unfold past_entry in Hd. apply andb_prop in Hd as [_ Hd].
  unfold all_past; fold all_past.
  destruct (truthy (event_date d)); simpl in Hd; [|apply IH, Hr].
  destruct (event_date d) as [| | |s| |]; try discriminate.
  simpl. destruct (Date.parse s) as [dt|]; [|discriminate]. simpl.
  rewrite Hd. apply IH, Hr.
Qed.

End PastEntries.

Section Rollover.

Variable e : env.
Variable queue url : string.

(** C3. An empty fetched schedule against a cached schedule whose dates are
    all strictly before the date of the call, at each read of the clock
    that looks at them (or against no cached schedule at all), is ignored:
    nothing is sent, [LogIgnored] is printed, and [save_current] is called
    with the empty schedule, which overwrites the cache file.  (When the
    disk refuses the write, the file is as the failed write left it and
    the line of the handler follows.) *)
Theorem rollover_ignored (w w1 : world) (entries : list pyval) :
  fetch_with_retry e queue url (seq 0 3) PNone w = (Ok (PList []), w1) ->
  cached_last e w queue entries ->
  all_behind e entries ->
  run e queue url w
  = mkworld (saved e queue (PList []) (cache w))
      (actions w1 ++ [CacheRead queue; CacheWrite queue (PList [])])
      (stdout w1 ++ LogIgnored queue :: after_save e queue (PList []) []).
Proof.
  intros Hf Hc Hp. rewrite (run_split _ _ _ _ _ _ Hf). simpl.
  pose proof (fetch_with_retry_cache _ _ _ _ _ _ _ _ Hf) as Hcache.
  assert (Hc1 : cached_last e w1 queue entries) by (unfold cached_last; rewrite Hcache; exact Hc).
  rewrite (handled_classify e queue (PList []) entries w1 ∅ ∅ true Hc1).
  - rewrite react_ignored by reflexivity. simpl. rewrite Hcache, <- app_assoc. reflexivity.
  - reflexivity.
  - apply past_entries_extract, (proj1 Hp).
  - apply past_entries_all_past. intros j. apply (proj2 Hp).
Qed.

End Rollover.
Section NormalizerClaims.

Variable today : Date.date.
Variable queue : string.

(** C4 (amended). On a schedule that is a sequence of day objects with
    typed [queues] in the surviving entries, [extract_relevant] returns a
    mapping [m] such that: no key of [m] is a date strictly before [today]
    (every key parses); entries whose [eventDate] does not parse are dropped
    silently (removing them from the input gives the same [m]); every
    surviving entry that no later entry repeats the date string of is
    mapped, under its date string, to its projected interval list for the
    queue; and [m] holds nothing else. *)
Theorem normalize_spec (days : list pyval) :
  normalizable today queue (PList days) = true ->
  exists m,
    extract_relevant today (PList days) queue = Ok m /\
    (forall k v, m !! k = Some v ->
       exists d, Date.parse k = Some d /\ Date.ltb d today = false) /\
    extract_relevant today (PList (List.filter well_dated days)) queue = Ok m /\
    (forall (i : nat) day s,
       days !! i = Some day ->
       surviving today day = Some s ->
       (forall (j : nat) day', (i < j)%nat -> days !! j = Some day' ->
          event_date day' <> PStr s) ->
       m !! s = Some (projection queue day)) /\
    (forall k v, m !! k = Some v ->
       exists day, day ∈ days /\ surviving today day = Some k /\
                   v = projection queue day).
Proof.
  intros Hn. exists (foldl (keep_day today queue) ∅ days).
  split; [apply extract_relevant_ok, Hn|].
  split; [|split; [|split]].
  - intros k v Hk. apply keep_days_keys in Hk as [Hk|(day & _ & Hs & _)].
    + rewrite lookup_empty in Hk. discriminate.
    + apply surviving_inv in Hs as [_ Hs]. exact Hs.
  - rewrite extract_relevant_ok by apply normalizable_filter, Hn.
    f_equal. apply keep_days_well_dated.
  - intros i day s Hi Hs Hl. apply (keep_days_last today queue days ∅ i day s Hi Hs Hl).
  - intros k v Hk. apply keep_days_keys in Hk as [Hk|H]; [|exact H].
    rewrite lookup_empty in Hk. discriminate.
Qed.

(** C9. When two entries carry the same today-or-future date string and the
    second is the last entry with that string, the mapping holds the
    projected interval list of the second under that date, whatever the
    first one listed. *)
Theorem duplicate_date_last_wins (days : list pyval) (i j : nat)
    (first second : pyval) (s : string) :
  normalizable today queue (PList days) = true ->
  (i < j)%nat ->
  days !! i = Some first ->
  days !! j = Some second ->
  surviving today first = Some s ->
  surviving today second = Some s ->
  (forall (k : nat) day, (j < k)%nat -> days !! k = Some day -> event_date day <> PStr s) ->
  exists m,
    extract_relevant today (PList days) queue = Ok m /\
    m !! s = Some (projection queue second) /\
    (projection queue first <> projection queue second ->
     m !! s <> Some (projection queue first)).
Proof.
  intros Hn _ _ Hj _ Hs Hl. exists (foldl (keep_day today queue) ∅ days).
  split; [apply extract_relevant_ok, Hn|].
  pose proof (keep_days_last today queue days ∅ j second s Hj Hs Hl) as Hm.
  split; [exact Hm|]. rewrite Hm. intros Hne [= Heq]. auto.
Qed.

End NormalizerClaims.

(** The mapping has one value per date string: of two surviving entries
    with the same date the first is not the one the mapping holds. *)
Lemma normalize_every_entry_counterexample :
  exists m,
    extract_relevant (Sample.jan 11) (PList [Sample.morning; Sample.revised]) "Q" = Ok m /\
    ~ (forall day s,
         day ∈ [Sample.morning; Sample.revised] ->
         surviving (Sample.jan 11) day = Some s ->
         m !! s = Some (projection "Q" day)).
Proof.
  eexists. split; [reflexivity|]. intros H.
  specialize (H Sample.morning "12.01.2025" ltac:(left) eq_refl).
  vm_compute in H. discriminate H.
Qed.

Lemma normalize_spec_witness :
  exists m,
    extract_relevant (Sample.jan 11)
      (PList [Sample.iso_dated; Sample.morning; Sample2.eastern_dated; Sample2.mixed_dated;
              Sample.revised]) "Q" = Ok m /\
    m !! "12.01.2025" = Some (projection "Q" Sample.revised) /\
    m !! Sample2.arabic_indic_year = Some (projection "Q" Sample2.eastern_dated) /\
    m !! Sample2.arabic_indic_day = Some (projection "Q" Sample2.mixed_dated) /\
    m !! "2025-01-12" = None.
Proof.
  destruct (normalize_spec (Sample.jan 11) "Q"
              [Sample.iso_dated; Sample.morning; Sample2.eastern_dated; Sample2.mixed_dated;
               Sample.revised] eq_refl)
    as (m & Hm & Hkeys & _ & Hlast & _).
  exists m. split; [exact Hm|]. split; [|split; [|split]].
  - apply (Hlast 4%nat Sample.revised "12.01.2025" eq_refl eq_refl).
    intros j day' Hlt Hj. destruct j as [|[|[|[|[|j]]]]]; try lia. discriminate Hj.
  - apply (Hlast 2%nat Sample2.eastern_dated Sample2.arabic_indic_year eq_refl eq_refl).
    intros j day' Hlt Hj. destruct j as [|[|[|[|[|j]]]]]; try lia; try discriminate Hj;
      injection Hj as <-; vm_compute; discriminate.
  - apply (Hlast 3%nat Sample2.mixed_dated Sample2.arabic_indic_day eq_refl eq_refl).
    intros j day' Hlt Hj. destruct j as [|[|[|[|[|j]]]]]; try lia; try discriminate Hj;
      injection Hj as <-; vm_compute; discriminate.
  - destruct (m !! "2025-01-12") as [v|] eqn:Hv; [|reflexivity].
    destruct (Hkeys _ _ Hv) as (d & Hd & _). discriminate Hd.
Defined.

Lemma duplicate_date_last_wins_witness :
  exists m,
    extract_relevant (Sample.jan 11) (PList [Sample.morning; Sample.revised]) "Q" = Ok m /\
    m !! "12.01.2025" = Some (projection "Q" Sample.revised) /\
    m !! "12.01.2025" <> Some (projection "Q" Sample.morning).
Proof.
  destruct (duplicate_date_last_wins (Sample.jan 11) "Q"
              [Sample.morning; Sample.revised] 0 1 Sample.morning Sample.revised
              "12.01.2025" eq_refl ltac:(lia) eq_refl eq_refl eq_refl eq_refl)
    as (m & Hm & Hl & Hne).
  - intros k day Hlt Hk. destruct k as [|[|k]]; try lia. discriminate Hk.
  - exists m. split; [exact Hm|]. split; [exact Hl|].
    apply Hne. discriminate.
Defined.

Section FetcherClaims.

Variable url : string.


Lemma fetch_null_body (reply : http_result) (w : world) :
  null_body reply ->
  fetch_schedule reply url w
  = (Ok PNone, mkworld (cache w) (actions w ++ [HttpGet url]) (stdout w)).
Proof.
  intros (r & -> & H403%Z.eqb_neq & H503%Z.eqb_neq & Hc & Hj).
  unfold fetch_schedule. cbv zeta. rewrite H403, H503, Hc, Hj. simpl.
  reflexivity.
Qed.

End FetcherClaims.

Section RetryClaims.

Variable e : env.
Variable queue url : string.

Lemma retry_step (a : nat) (rest : list nat) (current v : pyval) (logs : list line) (w : world) :
  fetch_schedule (http e a) url w
  = (Ok v, mkworld (cache w) (actions w ++ [HttpGet url]) (stdout w ++ logs)) ->
  fetch_with_retry e queue url (a :: rest) current w
  = if is_none v
    then fetch_with_retry e queue url rest v
           (mkworld (cache w) (actions w ++ [HttpGet url; Sleep 2])
              (stdout w ++ logs ++ [LogRetry queue (a + 1)]))
    else (Ok v, mkworld (cache w) (actions w ++ [HttpGet url]) (stdout w ++ logs)).
Proof.
  intros H. simpl. unfold mbind at 1. unfold M_bind at 1. rewrite H.
  destruct (is_none v); [|reflexivity].
  unfold_m. simpl. rewrite <- !app_assoc. reflexivity.
Qed.




(** C10. A reply that passes every check of the fetcher and carries the
    JSON literal [null] makes [fetch_schedule] return the same [None] as a
    transport error does, and without a diagnostic; three such replies make
    the call go through the three attempts and give up, with the cache
    neither read nor written and nothing sent, instead of treating the
    reply as an empty schedule. *)
Theorem null_body_is_unavailable (w : world) :
  (forall reply w', null_body reply ->
     fetch_schedule reply url w'
     = (Ok PNone, mkworld (cache w') (actions w' ++ [HttpGet url]) (stdout w')) /\
     (fetch_schedule reply url w').1 = (fetch_schedule TransportError url w').1) /\
  ((forall i : nat, (i < 3)%nat -> null_body (http e i)) ->
   run e queue url w
   = mkworld (cache w)
       (actions w ++ [HttpGet url; Sleep 2; HttpGet url; Sleep 2; HttpGet url; Sleep 2])
       (stdout w ++ [LogRetry queue 1; LogRetry queue 2; LogRetry queue 3;
                     LogGivingUp queue])).
Proof.
  split.
  - intros reply w' Hn. rewrite (fetch_null_body url reply w' Hn). split; reflexivity.
  - intros Hn.
    assert (Hf : forall (i : nat) w', (i < 3)%nat ->
              fetch_schedule (http e i) url w'
              = (Ok PNone, mkworld (cache w') (actions w' ++ [HttpGet url]) (stdout w' ++ []))).
    { intros i w' Hi. rewrite app_nil_r. apply fetch_null_body, Hn, Hi. }
    assert (Hl : fetch_with_retry e queue url (seq 0 3) PNone w
             = (Ok PNone,
                mkworld (cache w)
                  (actions w ++ [HttpGet url; Sleep 2; HttpGet url; Sleep 2; HttpGet url; Sleep 2])
                  (stdout w ++ [LogRetry queue 1; LogRetry queue 2; LogRetry queue 3]))).
    { simpl seq.
      rewrite (retry_step _ _ _ _ _ _ (Hf 0%nat _ ltac:(lia))). simpl is_none. cbv iota.
      rewrite (retry_step _ _ _ _ _ _ (Hf 1%nat _ ltac:(lia))). simpl is_none. cbv iota.
      rewrite (retry_step _ _ _ _ _ _ (Hf 2%nat _ ltac:(lia))). simpl.
      unfold mret, M_ret. rewrite <- !app_assoc. reflexivity. }
    rewrite (run_split _ _ _ _ _ _ Hl). simpl. rewrite <- app_assoc. reflexivity.
Qed.

End RetryClaims.

Section Determinism.

Variable e1 e2 : env.
Variable queue : string.
Hypothesis same_dates : forall r, clock e1 r = clock e2 r.

Lemma telegram_line_outcome (t : telegram_result) : line_outcome (telegram_line t) = None.
Proof. destruct t as [|code]; simpl; [reflexivity|]. destruct (negb (code =? 200)); reflexivity. Qed.

Lemma outcomes_cons (l : line) (ls : list line) :
  outcomes (l :: ls)
  = match line_outcome l with Some o => o :: outcomes ls | None => outcomes ls end.
Proof. reflexivity. Qed.

Lemma outcomes_telegram (t : telegram_result) (ls : list line) :
  outcomes (telegram_line t :: ls) = outcomes ls.
Proof. rewrite outcomes_cons, telegram_line_outcome. reflexivity. Qed.

Lemma after_save_outcomes (e : env) (data : pyval) (o : outcome) (l : line) :
  line_outcome l = Some o ->
  outcomes (after_save e queue data [l])
  = match save_raises e queue data with None => [o] | Some ex => [Failed ex] end.
Proof.
  intros Hl. unfold after_save. destruct (save_raises e queue data); [reflexivity|].
  rewrite outcomes_cons, Hl. reflexivity.
Qed.

Lemma saved_extend (e : env) (data : pyval) (acts : list action) (logs : list line) (w : world) :
  mkworld (saved e queue data (cache w)) (actions w ++ acts) (stdout w ++ logs)
  = extend (file e queue) (save_leaves e queue data) acts logs w.
Proof. reflexivity. Qed.

Lemma same_decision_raise (current : pyval) (alike : Prop) (ex : exn) (m1 m2 : M unit) :
  (forall w, m1 w = (Raise ex, w)) ->
  (forall w, m2 w = (Raise ex, w)) ->
  same_decision queue current (file e1 queue) (file e2 queue) alike
    (try_except m1 (on_error queue)) (try_except m2 (on_error queue)).
Proof.
  intros H1 H2. exists None, None, [], [], [LogError queue ex], [LogError queue ex].
  unfold extend, try_except, on_error, print. simpl.
  split; [intros w; rewrite H1; simpl; rewrite app_nil_r; reflexivity|].
  split; [intros w; rewrite H2; simpl; rewrite app_nil_r; reflexivity|].
  repeat split; auto; try discriminate.
Qed.

Lemma react_same_decision (current : pyval) (mc ml : gmap string (list pyval)) (b : bool) :
  same_decision queue current (file e1 queue) (file e2 queue)
    (storage e1 (cache_path queue) current = storage e2 (cache_path queue) current)
    (try_except (react e1 queue current mc ml b) (on_error queue))
    (try_except (react e2 queue current mc ml b) (on_error queue)).
Proof.
  assert (Halike : storage e1 (cache_path queue) current = storage e2 (cache_path queue) current ->
            save_leaves e1 queue current = save_leaves e2 queue current /\
            save_raises e1 queue current = save_raises e2 queue current).
  { unfold save_leaves, save_raises. intros ->. split; reflexivity. }
  assert (Hne : forall e o l, line_outcome l = Some o ->
            outcomes (telegram_line (telegram e) :: after_save e queue current [l]) <> []).
  { intros e o l Hl. rewrite outcomes_telegram, (after_save_outcomes e _ o l Hl).
    destruct (save_raises e queue current); discriminate. }
  assert (Heq : forall o l, line_outcome l = Some o ->
            save_raises e1 queue current = save_raises e2 queue current ->
            outcomes (telegram_line (telegram e1) :: after_save e1 queue current [l])
            = outcomes (telegram_line (telegram e2) :: after_save e2 queue current [l])).
  { intros o l Hl Hs. rewrite !outcomes_telegram, !(after_save_outcomes _ _ o l Hl), Hs.
    reflexivity. }
  destruct (truthy current) eqn:Ht.
  - destruct (dict_eqb mc ml) eqn:Hd.
    + exists None, None, [], [], [LogNoChange queue], [LogNoChange queue].
      split; [intros w; rewrite (react_unchanged e1 queue _ _ _ _ _ Ht Hd); unfold extend; simpl;
              rewrite app_nil_r; reflexivity|].
      split; [intros w; rewrite (react_unchanged e2 queue _ _ _ _ _ Ht Hd); unfold extend; simpl;
              rewrite app_nil_r; reflexivity|].
      repeat split; auto; try discriminate.
    + destruct (iter current) as [days|ex] eqn:Hi.
      * destruct (traverse (build_part queue) days) as [parts|ex] eqn:Hp.
        -- exists (save_leaves e1 queue current), (save_leaves e2 queue current),
             [TelegramPost (MsgChanged queue (QUEUE_NAMES e1 !! queue) parts);
              CacheWrite queue current],
             [TelegramPost (MsgChanged queue (QUEUE_NAMES e2 !! queue) parts);
              CacheWrite queue current],
             (telegram_line (telegram e1) :: after_save e1 queue current [LogChanged queue]),
             (telegram_line (telegram e2) :: after_save e2 queue current [LogChanged queue]).
           split; [intros w; rewrite (react_changed e1 queue _ _ _ _ _ _ _ Ht Hd Hi Hp);
                   reflexivity|].
           split; [intros w; rewrite (react_changed e2 queue _ _ _ _ _ _ _ Ht Hd Hi Hp);
                   reflexivity|].
           split; [reflexivity|]. split; [reflexivity|]. split; [right; reflexivity|].
           split; [apply (Hne e1 Changed); reflexivity|].
           intros [Hl Hr]%Halike. split; [exact Hl|]. apply (Heq Changed); [reflexivity|exact Hr].
        -- apply (same_decision_raise _ _ ex); intros w; unfold react; rewrite Ht, Hd; simpl;
             unfold lift, mbind, M_bind, mbind, result_bind, rbind; rewrite Hi, Hp; reflexivity.
      * apply (same_decision_raise _ _ ex); intros w; unfold react; rewrite Ht, Hd; simpl;
          unfold lift, mbind, M_bind, mbind, result_bind, rbind; rewrite Hi; reflexivity.
  - destruct b.
    + exists (save_leaves e1 queue current), (save_leaves e2 queue current),
        [CacheWrite queue current], [CacheWrite queue current],
        (LogIgnored queue :: after_save e1 queue current []),
        (LogIgnored queue :: after_save e2 queue current []).
      split; [intros w; rewrite (react_ignored e1 queue _ _ _ _ Ht); reflexivity|].
      split; [intros w; rewrite (react_ignored e2 queue _ _ _ _ Ht); reflexivity|].
      split; [reflexivity|]. split; [reflexivity|]. split; [right; reflexivity|].
      split; [discriminate|].
      intros [Hl Hr]%Halike. split; [exact Hl|]. unfold after_save. rewrite Hr. reflexivity.
    + exists (save_leaves e1 queue current), (save_leaves e2 queue current),
        [TelegramPost (MsgCancelled queue (QUEUE_NAMES e1 !! queue) (clock e1 AtMessage));
         CacheWrite queue current],
        [TelegramPost (MsgCancelled queue (QUEUE_NAMES e2 !! queue) (clock e2 AtMessage));
         CacheWrite queue current],
        (telegram_line (telegram e1) :: after_save e1 queue current [LogCancelled queue]),
        (telegram_line (telegram e2) :: after_save e2 queue current [LogCancelled queue]).
      split; [intros w; rewrite (react_cancelled e1 queue _ _ _ _ Ht); reflexivity|].
      split; [intros w; rewrite (react_cancelled e2 queue _ _ _ _ Ht); reflexivity|].
      split; [unfold notices; simpl; rewrite same_dates; reflexivity|].
      split; [reflexivity|]. split; [right; reflexivity|].
      split; [apply (Hne e1 Cancelled); reflexivity|].
      intros [Hl Hr]%Halike. split; [exact Hl|]. apply (Heq Cancelled); [reflexivity|exact Hr].
Qed.

Lemma drop_past_ext (now1 now2 : string -> Date.date) (m : gmap string (list pyval)) :
  (forall d, now1 d = now2 d) -> drop_past now1 m = drop_past now2 m.
Proof.
  intros H. unfold drop_past. destruct (decide _); [|reflexivity]. f_equal.
  apply map_filter_ext. intros k v _. simpl. rewrite H. reflexivity.
Qed.

Lemma all_past_ext (now1 now2 : nat -> Date.date) (i : nat) (l : list pyval) :
  (forall j, now1 j = now2 j) -> all_past now1 i l = all_past now2 i l.
Proof.
  intros H. revert i. induction l as [|d l IH]; intros i; [reflexivity|].
  unfold all_past; fold all_past. rewrite H, !IH. reflexivity.
Qed.

Lemma bind_lift_ok {A B : Type} (a : A) (k : A -> M B) : lift (Ok a) ≫= k = k a.
Proof. reflexivity. Qed.

Lemma compare_with_same_decision (current loaded : pyval) :
  same_decision queue current (file e1 queue) (file e2 queue)
    (storage e1 (cache_path queue) current = storage e2 (cache_path queue) current)
    (try_except (compare_with e1 queue current loaded) (on_error queue))
    (try_except (compare_with e2 queue current loaded) (on_error queue)).
Proof.
  unfold compare_with. cbv zeta.
  rewrite (same_dates AtCurrent), (same_dates AtLast).
  destruct (extract_relevant (clock e2 AtCurrent) current queue) as [mc|ex];
    [|apply (same_decision_raise _ _ ex); reflexivity].
  rewrite !bind_lift_ok.
  destruct (extract_relevant (clock e2 AtLast) _ queue) as [ml|ex];
    [|apply (same_decision_raise _ _ ex); reflexivity].
  rewrite !bind_lift_ok.
  rewrite (drop_past_ext (fun d => clock e1 (AtFilter d)) (fun d => clock e2 (AtFilter d)) ml)
    by (intros d; apply same_dates).
  destruct (drop_past _ ml) as [ml'|ex]; [|apply (same_decision_raise _ _ ex); reflexivity].
  rewrite !bind_lift_ok.
  destruct (iter _) as [entries|ex]; [|apply (same_decision_raise _ _ ex); reflexivity].
  rewrite !bind_lift_ok.
  destruct (traverse _ entries) as [dates|ex]; [|apply (same_decision_raise _ _ ex); reflexivity].
  rewrite !bind_lift_ok.
  rewrite (all_past_ext (fun i => clock e1 (AtScan i)) (fun i => clock e2 (AtScan i)) 0 dates)
    by (intros j; apply same_dates).
  destruct (all_past _ 0 dates) as [b|ex]; [|apply (same_decision_raise _ _ ex); reflexivity].
  rewrite !bind_lift_ok.
  apply react_same_decision.
Qed.

End Determinism.

Section DeterminismClaim.

Variable e1 e2 : env.
Variable queue : string.
Hypothesis same_dates : forall r, clock e1 r = clock e2 r.

(** C8 (amended). Two calls that read the same date at every read of the
    clock, fetch the same [current] and find the same cache file for the
    queue decide alike, whatever else differs (the rest of the cache, what
    was done and printed before, the URLs, the replies that led to
    [current], the display names, Telegram's reply): they send the same
    notifications and call [save_current] alike (not at all, or once with
    [current]).  If moreover the disk takes or refuses that write alike,
    they print the same outcomes and leave the same in the cache file. *)
Theorem classifier_deterministic (url1 url2 : string) (w1 w2 w1' w2' : world) (current : pyval) :
  fetch_with_retry e1 queue url1 (seq 0 3) PNone w1 = (Ok current, w1') ->
  fetch_with_retry e2 queue url2 (seq 0 3) PNone w2 = (Ok current, w2') ->
  cache w1 !! file e1 queue = cache w2 !! file e2 queue ->
  exists acts1 acts2 logs1 logs2 left1 left2,
    run e1 queue url1 w1 = extend (file e1 queue) left1 acts1 logs1 w1' /\
    run e2 queue url2 w2 = extend (file e2 queue) left2 acts2 logs2 w2' /\
    notices acts1 = notices acts2 /\
    cache_writes acts1 = cache_writes acts2 /\
    (cache_writes acts1 = [] \/ cache_writes acts1 = [(queue, current)]) /\
    outcomes logs1 <> [] /\
    (storage e1 (cache_path queue) current = storage e2 (cache_path queue) current ->
     left1 = left2 /\ outcomes logs1 = outcomes logs2).
Proof.
  intros Hf1 Hf2 Hc.
  rewrite (run_split _ _ _ _ _ _ Hf1), (run_split _ _ _ _ _ _ Hf2).
  apply fetch_with_retry_cache in Hf1, Hf2. rewrite <- Hf1, <- Hf2 in Hc. clear Hf1 Hf2.
  destruct (is_none current).
  - exists [], [], [LogGivingUp queue], [LogGivingUp queue], None, None.
    unfold extend. simpl. rewrite !app_nil_r. repeat split; auto; try discriminate.
  - assert (Hcls : forall e w,
              try_except (classify e queue current) (on_error queue) w
              = match cache w !! file e queue with
                | None => try_except (compare_with e queue current PNone) (on_error queue)
                            (mkworld (cache w) (actions w ++ [CacheRead queue]) (stdout w))
                | Some (Stored data) =>
                    try_except (compare_with e queue current data) (on_error queue)
                      (mkworld (cache w) (actions w ++ [CacheRead queue]) (stdout w))
                | Some (Unreadable ex) =>
                    (Ok tt, mkworld (cache w) (actions w ++ [CacheRead queue])
                              (stdout w ++ [LogError queue ex]))
                end).
    { intros e w. unfold try_except, classify. unfold mbind at 1. unfold M_bind at 1.
      rewrite load_last_run. destruct (cache w !! file e queue) as [[data|ex]|]; reflexivity. }
    rewrite !Hcls, <- Hc.
    assert (Hwrap : forall loaded,
      exists acts1 acts2 logs1 logs2 left1 left2,
        (try_except (compare_with e1 queue current loaded) (on_error queue)
           (mkworld (cache w1') (actions w1' ++ [CacheRead queue]) (stdout w1'))).2
        = extend (file e1 queue) left1 acts1 logs1 w1' /\
        (try_except (compare_with e2 queue current loaded) (on_error queue)
           (mkworld (cache w2') (actions w2' ++ [CacheRead queue]) (stdout w2'))).2
        = extend (file e2 queue) left2 acts2 logs2 w2' /\
        notices acts1 = notices acts2 /\
        cache_writes acts1 = cache_writes acts2 /\
        (cache_writes acts1 = [] \/ cache_writes acts1 = [(queue, current)]) /\
        outcomes logs1 <> [] /\
        (storage e1 (cache_path queue) current = storage e2 (cache_path queue) current ->
         left1 = left2 /\ outcomes logs1 = outcomes logs2)).
    { intros loaded.
      destruct (compare_with_same_decision e1 e2 queue same_dates current loaded)
        as (l1 & l2 & a1 & a2 & g1 & g2 & H1 & H2 & Hn & Hw & Hone & Hne & Hal).
      exists (CacheRead queue :: a1), (CacheRead queue :: a2), g1, g2, l1, l2.
      rewrite H1, H2.
      split; [unfold extend; simpl; rewrite <- !app_assoc; reflexivity|].
      split; [unfold extend; simpl; rewrite <- !app_assoc; reflexivity|].
      split; [exact Hn|]. split; [exact Hw|]. split; [exact Hone|].
      split; [exact Hne|exact Hal]. }
    destruct (cache w1' !! file e1 queue) as [[data|ex]|] eqn:Hq.
    + apply Hwrap.
    + exists [CacheRead queue], [CacheRead queue],
        [LogError queue ex], [LogError queue ex], None, None.
      unfold extend. repeat split; auto; try discriminate.
    + apply Hwrap.
Qed.

End DeterminismClaim.

Section ScanFacts.

Lemma all_past_dated (now : nat -> Date.date) (today : Date.date) (i : nat)
    (entries : list pyval) :
  (forall j, now j = today) ->
  forallb dated entries = true ->
  all_past now i (map event_date entries)
  = Ok (forallb (past_or_undated today) entries).
Proof.
  intros Hnow. revert i. induction entries as [|d ds IH]; intros i; [reflexivity|].
  simpl. intros [Hd Hr]%andb_prop. unfold all_past; fold all_past.
  unfold dated, well_dated in Hd. unfold past_or_undated at 1.
  destruct (truthy (event_date d)); simpl in *; [|apply IH, Hr].
  destruct (event_date d) as [| | |s| |]; try discriminate.
  apply bool_decide_eq_true in Hd as [dt Hdt]. simpl. rewrite Hdt. simpl.
  rewrite Hnow. destruct (Date.ltb dt today); [apply IH, Hr|reflexivity].
Qed.

Lemma surviving_not_past (today : Date.date) (day : pyval) (s : string) :
  surviving today day = Some s -> past_or_undated today day = false.
Proof.
  intros Hs. pose proof Hs as [Hev (d & Hp & Hl)]%surviving_inv.
  unfold past_or_undated. rewrite Hev. simpl. rewrite Hp, Hl.
  destruct s; [discriminate Hp|reflexivity].
Qed.

Lemma typed_normalizable (today : Date.date) (queue : string) (days : list pyval) :
  typed_schedule queue (PList days) = true ->
  normalizable today queue (PList days) = true.
Proof.
  simpl. induction days as [|d ds IH]; simpl; [reflexivity|].
  intros [[Hd Hq]%andb_prop Hr]%andb_prop. rewrite Hd, (IH Hr). simpl.
  destruct (surviving today d); [rewrite Hq|]; reflexivity.
Qed.

Lemma traverse_outage_lines (xs : list pyval) :
  forallb is_dict xs = true -> exists ls, traverse outage_line xs = Ok ls.
Proof.
  induction xs as [|x xs IH]; simpl; [eauto|].
  intros [Hx [ls Hls]%IH]%andb_prop. destruct x; try discriminate.
  simpl. rewrite Hls. simpl. eauto.
Qed.

Lemma build_parts_ok (queue : string) (days : list pyval) :
  typed_schedule queue (PList days) = true ->
  exists parts, traverse (build_part queue) days = Ok parts.
Proof.
  simpl. induction days as [|d ds IH]; simpl; [eauto|].
  intros [[Hd Hq]%andb_prop [parts Hp]%IH]%andb_prop. rewrite Hp.
  destruct d as [| | | | |kvs]; try discriminate. unfold build_part. simpl in *.
  destruct (assoc "queues" kvs) as [[| | | | |qs]|]; try discriminate; simpl; [|eauto].
  destruct (assoc queue qs) as [[| | | |xs|]|]; try discriminate; simpl; [|eauto].
  destruct xs as [|x xs]; simpl; [eauto|].
  destruct (traverse_outage_lines (x :: xs) Hq) as [ls Hls]. simpl in Hls.
  rewrite Hls. simpl. eauto.
Qed.

(** A cached date that is given and does not parse, met by the scan before
    any date that is not past, makes the scan raise. *)
Lemma all_past_malformed (now : nat -> Date.date) (i : nat)
    (before : list pyval) (bad : pyval) (after : list pyval) :
  (forall j, forallb (past_entry (now j)) before = true) ->
  truthy (event_date bad) = true ->
  well_dated bad = false ->
  exists ex,
    all_past now i (map event_date (before ++ bad :: after)) = Raise ex.
Proof.
  intros Hb Ht Hw. revert i. induction before as [|d ds IH]; intros i; simpl in *.
  - unfold all_past. rewrite Ht. unfold well_dated in Hw.
    destruct (event_date bad) as [| | |s| |]; simpl; eauto.
    destruct (Date.parse s); simpl; eauto. discriminate Hw.
  - assert (Hr : forall j, forallb (past_entry (now j)) ds = true).
    { intros j. specialize (Hb j). apply andb_prop in Hb as [_ Hr]. exact Hr. }
    destruct (IH Hr (S i)) as [ex Hex]. exists ex.
    specialize (Hb i). apply andb_prop in Hb as [Hd _].
    unfold past_entry in Hd. apply andb_prop in Hd as [_ Hd].
    unfold all_past; fold all_past.
    destruct (truthy (event_date d)); simpl in Hd; [|exact Hex].
    destruct (event_date d) as [| | |s| |]; try discriminate.
    simpl. destruct (Date.parse s) as [dt|]; [|discriminate]. simpl.
    rewrite Hd. exact Hex.
Qed.

End ScanFacts.

Section ClassifierFacts.

Variable e : env.
Variable queue url : string.


(** Cancellation, whenever the call does not run over midnight and every
    cached date parses: an empty [current] against a cached schedule with
    a today-or-future entry. *)
Lemma cancellation (d : Date.date) (w w1 : world) (entries : list pyval) (day : pyval)
    (s : string) :
  steady e d ->
  fetch_with_retry e queue url (seq 0 3) PNone w = (Ok (PList []), w1) ->
  cached_last e w queue entries ->
  normalizable d queue (PList entries) = true ->
  forallb dated entries = true ->
  day ∈ entries ->
  surviving d day = Some s ->
  run e queue url w
  = mkworld (saved e queue (PList []) (cache w))
      (actions w1 ++ [CacheRead queue;
                      TelegramPost (MsgCancelled queue (QUEUE_NAMES e !! queue) d);
                      CacheWrite queue (PList [])])
      (stdout w1 ++ telegram_line (telegram e)
         :: after_save e queue (PList []) [LogCancelled queue]).
Proof.
  intros Hst Hf Hc Hn Hd Hin Hs.
  rewrite (run_split _ _ _ _ _ _ Hf). simpl.
  pose proof (fetch_with_retry_cache _ _ _ _ _ _ _ _ Hf) as Hcache.
  assert (Hc1 : cached_last e w1 queue entries) by (unfold cached_last; rewrite Hcache; exact Hc).
  assert (Hb : forallb (past_or_undated d) entries = false).
  { apply not_true_is_false. intros Hall. rewrite forallb_forall in Hall.
    apply list_elem_of_In in Hin. specialize (Hall _ Hin).
    rewrite (surviving_not_past _ _ _ Hs) in Hall. discriminate. }
  assert (Hml : extract_relevant (clock e AtLast) (PList entries) queue
                = Ok (foldl (keep_day d queue) ∅ entries))
    by (rewrite (Hst AtLast); apply extract_relevant_ok, Hn).
  rewrite (handled_classify e queue (PList []) entries w1 ∅ _ false Hc1 eq_refl Hml).
  - rewrite react_cancelled by reflexivity. simpl.
    rewrite Hcache, (Hst AtMessage), <- app_assoc. reflexivity.
  - rewrite (all_past_dated (scan_clock e) d 0 entries (fun j => Hst (AtScan j)) Hd), Hb.
    reflexivity.
Qed.

(** When the scan of the cached dates raises, the call ends in the handler
    whatever was fetched: nothing is sent and the cache is left as it was,
    so the next call meets the same cache. *)
Lemma scan_failure_sticks (w w1 : world) (current : pyval) (entries : list pyval)
    (mc ml : gmap string (list pyval)) (ex : exn) :
  fetch_with_retry e queue url (seq 0 3) PNone w = (Ok current, w1) ->
  is_none current = false ->
  extract_relevant (clock e AtCurrent) current queue = Ok mc ->
  cached_last e w queue entries ->
  extract_relevant (clock e AtLast) (PList entries) queue = Ok ml ->
  all_past (scan_clock e) 0 (map event_date entries) = Raise ex ->
  run e queue url w
  = mkworld (cache w) (actions w1 ++ [CacheRead queue]) (stdout w1 ++ [LogError queue ex]).
Proof.
  intros Hf Hcur Hmc Hc Hml Hb.
  rewrite (run_split _ _ _ _ _ _ Hf), Hcur.
  pose proof (fetch_with_retry_cache _ _ _ _ _ _ _ _ Hf) as Hcache.
  assert (Hc1 : cached_last e w1 queue entries) by (unfold cached_last; rewrite Hcache; exact Hc).
  unfold try_except.
  rewrite (classify_scan e queue current entries w1 mc ml Hc1 Hmc Hml), Hb.
  simpl. rewrite Hcache. reflexivity.
Qed.

(** C7 (amended). A queue never seen has no cache file: [load_last] returns
    [None] without raising, and the comparison that follows is the one made
    for a cached empty schedule.  A cache file that cannot be read makes
    [load_last] raise; the handler of [check_and_alert] prints the error
    and the call ends there: nothing is compared, sent or written. *)
Theorem cache_absent_or_unreadable (w w1 : world) (current : pyval) :
  (cache w !! file e queue = None ->
   load_last e queue w
   = (Ok PNone, mkworld (cache w) (actions w ++ [CacheRead queue]) (stdout w)) /\
   compare_with e queue current PNone = compare_with e queue current (PList [])) /\
  (forall ex,
     cache w !! file e queue = Some (Unreadable ex) ->
     fetch_with_retry e queue url (seq 0 3) PNone w = (Ok current, w1) ->
     is_none current = false ->
     run e queue url w
     = mkworld (cache w) (actions w1 ++ [CacheRead queue])
         (stdout w1 ++ [LogError queue ex])).
Proof.
  split.
  - intros Hc. rewrite load_last_run, Hc. split; reflexivity.
  - intros ex Hc Hf Hcur. rewrite (run_split _ _ _ _ _ _ Hf), Hcur.
    pose proof (fetch_with_retry_cache _ _ _ _ _ _ _ _ Hf) as Hcache.
    unfold try_except, classify. unfold mbind, M_bind.
    rewrite load_last_run, Hcache, Hc. reflexivity.
Qed.

End ClassifierFacts.

Import Sample.

Lemma rollover_ignored_witness :
  run (serving (PList []) (jan 11)) "Q" "https://be-svitlo.oe.if.ua/q" (holding yesterday_only)
  = mkworld {["cache/Q.json" := Stored (PList [])]}
      [HttpGet "https://be-svitlo.oe.if.ua/q"; CacheRead "Q"; CacheWrite "Q" (PList [])]
      [LogIgnored "Q"].
Proof.
  rewrite (rollover_ignored (serving (PList []) (jan 11)) "Q" "https://be-svitlo.oe.if.ua/q"
             (holding yesterday_only)
             (mkworld {["cache/Q.json" := Stored yesterday_only]}
                [HttpGet "https://be-svitlo.oe.if.ua/q"] [])
             [day_entry "10.01.2025" "Q" [interval "10:00" "14:00"]]).
  - vm_compute. reflexivity.
  - reflexivity.
  - left. reflexivity.
  - split; [reflexivity|intros i; reflexivity].
Defined.



Lemma null_body_is_unavailable_witness :
  run (serving PNone (jan 11)) "Q" "u" (holding yesterday_only)
  = mkworld {["cache/Q.json" := Stored yesterday_only]}
      [HttpGet "u"; Sleep 2; HttpGet "u"; Sleep 2; HttpGet "u"; Sleep 2]
      [LogRetry "Q" 1; LogRetry "Q" 2; LogRetry "Q" 3; LogGivingUp "Q"].
Proof.
  destruct (null_body_is_unavailable (serving PNone (jan 11)) "Q" "u" (holding yesterday_only))
    as [_ H].
  apply H. intros i _. eexists. split; [reflexivity|].
  simpl. repeat split; try discriminate; reflexivity.
Defined.

(** An unreadable cache file is not treated as a missing one: with the file
    missing the fetched schedule is reported as changed, with the file
    unreadable nothing is sent. *)
Lemma unreadable_cache_counterexample :
  notices (actions (run (serving (PList [morning]) (jan 11)) "Q" "u" fresh))
  <> notices (actions (run (serving (PList [morning]) (jan 11)) "Q" "u" unreadable)).
Proof. vm_compute. discriminate. Qed.

Lemma cache_absent_or_unreadable_witness :
  run (serving (PList [morning]) (jan 11)) "Q" "u" unreadable
  = mkworld {["cache/Q.json" := Unreadable JSONDecodeError]} [HttpGet "u"; CacheRead "Q"]
      [LogError "Q" JSONDecodeError].
Proof.
  destruct (cache_absent_or_unreadable (serving (PList [morning]) (jan 11)) "Q" "u"
              unreadable (mkworld {["cache/Q.json" := Unreadable JSONDecodeError]} [HttpGet "u"] [])
              (PList [morning])) as [_ H].
  apply (H JSONDecodeError); reflexivity.
Defined.

(** Two calls with the same fetched schedule, the same cache file and the
    same date at their first read of the clock that do not decide alike:
    for the second one midnight falls between the two normalizations, so
    today's entry is kept of the fetched schedule and dropped from the
    cached one, and the unchanged schedule is reported as changed.  And two
    calls with the same dates throughout that do not print the same
    outcome: one of them cannot write its cache file. *)
Lemma classifier_deterministic_counterexample :
  let doc := PList [Sample2.today_entry] in
  let calm := serving doc (jan 11) in
  let late := Sample2.overnight doc (jan 11) (jan 12) in
  (clock calm AtCurrent = clock late AtCurrent /\
   fetch_with_retry calm "Q" "u" (seq 0 3) PNone (holding doc)
   = fetch_with_retry late "Q" "u" (seq 0 3) PNone (holding doc) /\
   outcomes (stdout (run calm "Q" "u" (holding doc))) = [Unchanged] /\
   outcomes (stdout (run late "Q" "u" (holding doc))) = [Changed] /\
   notices (actions (run calm "Q" "u" (holding doc))) = [] /\
   notices (actions (run late "Q" "u" (holding doc)))
   = [ChangedNotice "Q" [Parts.day_part "Q" Sample2.today_entry]] /\
   cache_writes (actions (run calm "Q" "u" (holding doc))) = [] /\
   cache_writes (actions (run late "Q" "u" (holding doc))) = [("Q", doc)]) /\
  (outcomes (stdout (run (serving (PList [revised]) (jan 11)) "Q" "u"
                       (holding (PList [morning])))) = [Changed] /\
   outcomes (stdout (run (Sample2.read_only (PList [revised]) (jan 11)) "Q" "u"
                       (holding (PList [morning])))) = [Failed OSError]).
Proof. vm_compute. repeat split; reflexivity. Qed.

Lemma classifier_deterministic_witness :
  exists acts1 acts2 logs1 logs2,
    actions (run (serving (PList [revised]) (jan 11)) "Q" "u" (holding (PList [morning])))
    = ([HttpGet "u"] ++ acts1)%list /\
    actions (run (renamed (PList [revised]) (jan 11)) "Q" "v" (busy (PList [morning])))
    = ([Sleep 5; HttpGet "v"] ++ acts2)%list /\
    stdout (run (serving (PList [revised]) (jan 11)) "Q" "u" (holding (PList [morning])))
    = logs1 /\
    stdout (run (renamed (PList [revised]) (jan 11)) "Q" "v" (busy (PList [morning])))
    = ([LogNoChange "R"] ++ logs2)%list /\
    outcomes logs1 = outcomes logs2 /\
    notices acts1 = notices acts2 /\
    cache_writes acts1 = cache_writes acts2.
Proof.
  destruct (classifier_deterministic
              (serving (PList [revised]) (jan 11)) (renamed (PList [revised]) (jan 11)) "Q"
              (fun _ => eq_refl) "u" "v" (holding (PList [morning])) (busy (PList [morning]))
              (mkworld {["cache/Q.json" := Stored (PList [morning])]} [HttpGet "u"] [])
              (mkworld {["cache/Q.json" := Stored (PList [morning]);
                         "cache/R.json" := Stored (PList [])]}
                 [Sleep 5; HttpGet "v"] [LogNoChange "R"])
              (PList [revised]) eq_refl eq_refl eq_refl)
    as (a1 & a2 & l1 & l2 & f1 & f2 & H1 & H2 & Hn & Hw & _ & _ & Hal).
  destruct (Hal eq_refl) as [_ Ho].
  exists a1, a2, l1, l2. rewrite H1, H2. simpl. repeat split; assumption.
Defined.

(** C2 (the program at the failing input). The program itself caches a
    schedule with an entry dated in another format: the first call reports
    it as changed and writes it.  At the next call the schedule is empty
    and the cache holds a today-or-future entry, yet no cancellation is
    sent: the scan of the cached dates raises [ValueError] on the first
    entry, the handler prints the error, and the cache keeps the old
    schedule. *)
Theorem cancellation_lost_after_malformed_date :
  let cached := PList [iso_dated; morning] in
  let w1 := run (serving cached (jan 11)) "Q" "u" fresh in
  cache w1 !! "cache/Q.json" = Some (Stored cached) /\
  outcomes (stdout w1) = [Changed] /\
  surviving (jan 11) morning = Some "12.01.2025" /\
  run (serving (PList []) (jan 11)) "Q" "u" (holding cached)
  = mkworld {["cache/Q.json" := Stored cached]} [HttpGet "u"; CacheRead "Q"]
      [LogError "Q" ValueError].
Proof. vm_compute. repeat split; reflexivity. Qed.

(** C1 (the program at the failing input). With the same cache, a fetched
    schedule whose normalized mapping differs from the cached one is not
    reported as changed: the call ends in the handler, sends nothing and
    leaves the cache as it was. *)
Theorem change_missed_after_malformed_date :
  let cached := PList [iso_dated; morning] in
  exists mc ml,
    extract_relevant (jan 11) (PList [revised]) "Q" = Ok mc /\
    extract_relevant (jan 11) cached "Q" = Ok ml /\
    dict_eqb mc ml = false /\
    run (serving (PList [revised]) (jan 11)) "Q" "u" (holding cached)
    = mkworld {["cache/Q.json" := Stored cached]} [HttpGet "u"; CacheRead "Q"]
        [LogError "Q" ValueError].
Proof.
  cbv zeta.
  exists (match extract_relevant (jan 11) (PList [revised]) "Q" with
          | Ok m => m
          | Raise _ => ∅
          end),
         (match extract_relevant (jan 11) (PList [iso_dated; morning]) "Q" with
          | Ok m => m
          | Raise _ => ∅
          end).
  split; [vm_compute; reflexivity|]. split; [vm_compute; reflexivity|].
  split; vm_compute; reflexivity.
Qed.

(** ** The scenarios of the specification *)

(** Scenario B: the cached date is still to come and the fetched schedule
    is empty: the cancellation is sent. *)
Example scenario_cancelled :
  run (serving (PList []) (jan 9)) "Q" "u" (holding yesterday_only)
  = mkworld {["cache/Q.json" := Stored (PList [])]}
      [HttpGet "u"; CacheRead "Q";
       TelegramPost (MsgCancelled "Q" None (jan 9)); CacheWrite "Q" (PList [])]
      [LogTelegramSent; LogCancelled "Q"].
Proof. vm_compute. reflexivity. Qed.

(** Scenario C: the outage of the same day ends an hour later: the change
    is sent with the new interval. *)
Example scenario_changed :
  run (serving (PList [revised]) (jan 11)) "Q" "u" (holding (PList [morning]))
  = mkworld {["cache/Q.json" := Stored (PList [revised])]}
      [HttpGet "u"; CacheRead "Q";
       TelegramPost
         (MsgChanged "Q" None
            [mkpart (PStr "12.01.2025") (PStr "?") (Some [(PStr "10:00", PStr "15:00")])]);
       CacheWrite "Q" (PList [revised])]
      [LogTelegramSent; LogChanged "Q"].
Proof. vm_compute. reflexivity. Qed.

(** Scenario D: the fetched schedule is the cached one: nothing is sent and
    the cache is not written. *)
Example scenario_unchanged :
  run (serving (PList [morning]) (jan 11)) "Q" "u" (holding (PList [morning]))
  = mkworld {["cache/Q.json" := Stored (PList [morning])]} [HttpGet "u"; CacheRead "Q"]
      [LogNoChange "Q"].
Proof. vm_compute. reflexivity. Qed.

(** The write that follows a message can fail: the message is out, the
    handler prints the error, and the cache still holds the old schedule,
    so the next call sends the same message again. *)
Example scenario_sent_not_saved :
  run (Sample2.read_only (PList [revised]) (jan 11)) "Q" "u" (holding (PList [morning]))
  = mkworld {["cache/Q.json" := Stored (PList [morning])]}
      [HttpGet "u"; CacheRead "Q";
       TelegramPost
         (MsgChanged "Q" None
            [mkpart (PStr "12.01.2025") (PStr "?") (Some [(PStr "10:00", PStr "15:00")])]);
       CacheWrite "Q" (PList [revised])]
      [LogTelegramSent; LogError "Q" OSError].
Proof. vm_compute. reflexivity. Qed.

(** [true] and [1] are equal for [==], so a status that turns from one into
    the other is no change. *)
Example bool_is_number :
  Py.eqb (PDict [("status", PBool true)]) (PDict [("status", PNum 1)]) = true.
Proof. reflexivity. Qed.

(** * Further properties of the program *)

Import Json Effects Parts Cycle Config.

(** ** Python equality on well-formed JSON values *)

Section PyvalInduction.

Variable P : pyval -> Prop.
Hypothesis P_none : P PNone.
Hypothesis P_bool : forall b, P (PBool b).
Hypothesis P_num : forall q, P (PNum q).
Hypothesis P_str : forall s, P (PStr s).
Hypothesis P_list : forall l, Forall P l -> P (PList l).
Hypothesis P_dict : forall kvs, Forall (fun kv => P (snd kv)) kvs -> P (PDict kvs).

Lemma pyval_nested_ind (v : pyval) : P v.
Proof.
  revert v. fix IH 1. intros [| b | q | s | l | kvs].
  - exact P_none.
  - apply P_bool.
  - apply P_num.
  - apply P_str.
  - apply P_list. induction l as [|x r IHl]; constructor; [apply IH | exact IHl].
  - apply P_dict. induction kvs as [|kv r IHl]; constructor; [apply IH | exact IHl].
Qed.

End PyvalInduction.

Lemma assoc_distinct (kvs : list (string * pyval)) (k : string) (v : pyval) :
  distinct (map fst kvs) = true -> (k, v) ∈ kvs -> assoc k kvs = Some v.
Proof.
  induction kvs as [|[k' v'] r IH]; simpl; intros Hd Hin.
  - inversion Hin.
  - apply andb_prop in Hd as [Hn Hd]. apply negb_true_iff in Hn.
    apply elem_of_cons in Hin as [[= -> ->]|Hin].
    + rewrite String.eqb_refl. reflexivity.
    + destruct (String.eqb k k') eqn:Hk.
      * apply String.eqb_eq in Hk. subst k'. exfalso.
        assert (existsb (String.eqb k) (map fst r) = true); [|congruence].
        apply existsb_exists. exists k. split; [|apply String.eqb_refl].
        apply in_map_iff. exists (k, v). split; [reflexivity|].
        apply list_elem_of_In, Hin.
      * apply IH; assumption.
Qed.

Lemma eqb_list_refl (l : list pyval) :
  Forall (fun x => Py.eqb x x = true) l -> Py.eqb (PList l) (PList l) = true.
Proof.
  induction 1 as [|x r Hx _ IH]; simpl in *; [reflexivity|]. rewrite Hx. exact IH.
Qed.

Lemma eqb_refl (v : pyval) : unique_keys v = true -> Py.eqb v v = true.
Proof.
  induction v as [| b | q | s | l IH | kvs IH] using pyval_nested_ind; intros Hu.
  - reflexivity.
  - destruct b; reflexivity.
  - simpl. apply Qeq_bool_iff. reflexivity.
  - simpl. apply String.eqb_refl.
  - apply eqb_list_refl. simpl in Hu. rewrite forallb_forall in Hu.
    rewrite List.Forall_forall in *. intros x Hx. apply IH; [exact Hx|apply Hu, Hx].
  - simpl in Hu. apply andb_prop in Hu as [Hd Hu].
    simpl. rewrite Nat.eqb_refl. simpl.
    assert (Hsub : forall l, (forall kv, kv ∈ l -> kv ∈ kvs) ->
              (fix go (l : list (string * pyval)) : bool :=
                 match l with
                 | [] => true
                 | (k, v) :: r =>
                     match assoc k kvs with
                     | Some v' => Py.eqb v v'
                     | None => false
                     end && go r
                 end) l = true).
    { induction l as [|[k v] r IHl]; intros Hl; [reflexivity|].
      rewrite (assoc_distinct kvs k v Hd) by (apply Hl; left).
      rewrite IHl by (intros kv Hkv; apply Hl; right; exact Hkv).
      rewrite andb_true_r. rewrite List.Forall_forall in IH.
      assert (Hin : In (k, v) kvs) by (apply list_elem_of_In, Hl; left).
      apply (IH (k, v) Hin). rewrite forallb_forall in Hu. apply (Hu (k, v) Hin). }
    apply Hsub. auto.
Qed.

(** ** More on [extract_relevant] *)

Section NormalizerMore.

Variable queue : string.

Lemma ltb_spec (a b : Date.date) :
  Date.ltb a b = true <->
  (Date.year a < Date.year b
   \/ (Date.year a = Date.year b
       /\ (Date.month a < Date.month b
           \/ (Date.month a = Date.month b /\ Date.day a < Date.day b)))).
Proof.
  unfold Date.ltb.
  rewrite orb_true_iff, andb_true_iff, orb_true_iff, andb_true_iff.
  rewrite !Z.ltb_lt, !Z.eqb_eq. tauto.
Qed.

Lemma ltb_trans_ge (d t1 t2 : Date.date) :
  Date.ltb d t1 = true -> Date.ltb t2 t1 = false -> Date.ltb d t2 = true.
Proof.
  intros H1 H2. apply ltb_spec in H1. apply ltb_spec.
  assert (H3 : ~ (Date.year t2 < Date.year t1
   \/ (Date.year t2 = Date.year t1
       /\ (Date.month t2 < Date.month t1
           \/ (Date.month t2 = Date.month t1 /\ Date.day t2 < Date.day t1))))).
  { rewrite <- ltb_spec, H2. discriminate. }
  lia.
Qed.

(** X1. Whatever the schedule is, a mapping returned by [extract_relevant]
    has only keys that parse to dates not before the [today] it read; so
    the dict comprehension that follows in [check_and_alert] never raises:
    it keeps the keys that are not past at the date read for them, which
    is all of them when those reads give [today] again. *)
Theorem refilter_is_identity (today : Date.date) (now : string -> Date.date)
    (schedule : pyval) (m : gmap string (list pyval)) :
  extract_relevant today schedule queue = Ok m ->
  (forall k v, m !! k = Some v ->
     exists d, Date.parse k = Some d /\ Date.ltb d today = false) /\
  drop_past now m = Ok (filter (fun kv => not_past (now kv.1) kv.1 = true) m) /\
  ((forall d, now d = today) -> drop_past now m = Ok m).
Proof.
  intros H. split; [apply (extracted_keys queue today schedule m H)|].
  split; [apply (drop_past_extracted queue now today schedule m H)|].
  intros Hnow. rewrite (drop_past_extracted queue now today schedule m H).
  f_equal. apply (refilter_same_day queue now today schedule m H). intros k v _. apply Hnow.
Qed.

Lemma extract_day_later (t1 t2 : Date.date) (acc acc' : gmap string (list pyval)) (day : pyval) :
  Date.ltb t2 t1 = false ->
  extract_day t1 queue acc day = Ok acc' ->
  extract_day t2 queue (filter (fun kv => not_past t2 kv.1 = true) acc) day
  = Ok (filter (fun kv => not_past t2 kv.1 = true) acc').
Proof.
  intros Hle. unfold extract_day.
  destruct day as [| | | | |kvs]; try discriminate. simpl.
  destruct (assoc "eventDate" kvs) as [[| | |s| |]|]; simpl; try (intros [= <-]; reflexivity).
  destruct (Date.parse s) as [d|] eqn:Hp; [|intros [= <-]; reflexivity].
  destruct (Date.ltb d t1) eqn:Hl1.
  - intros [= <-]. rewrite (ltb_trans_ge d t1 t2 Hl1 Hle). reflexivity.
  - destruct (get _ queue _) as [qdata|]; simpl; [|discriminate].
    destruct (iter qdata) as [xs|]; simpl; [|discriminate].
    destruct (traverse simplify xs) as [simplified|]; simpl; [|discriminate].
    intros [= <-]. destruct (Date.ltb d t2) eqn:Hl2.
    + f_equal. symmetry. apply map_filter_insert_not. intros y. simpl.
      unfold not_past, Date.geb. rewrite Hp, Hl2. discriminate.
    + f_equal. symmetry. apply map_filter_insert_True. simpl.
      unfold not_past, Date.geb. rewrite Hp, Hl2. reflexivity.
Qed.

Lemma fold_loop_later (t1 t2 : Date.date) (days : list pyval) (acc m : gmap string (list pyval)) :
  Date.ltb t2 t1 = false ->
  fold_loop (extract_day t1 queue) days acc = Ok m ->
  fold_loop (extract_day t2 queue) days (filter (fun kv => not_past t2 kv.1 = true) acc)
  = Ok (filter (fun kv => not_past t2 kv.1 = true) m).
Proof.
  intros Hle. revert acc. induction days as [|day days IH]; intros acc; simpl.
  - intros [= <-]. reflexivity.
  - destruct (extract_day t1 queue acc day) as [acc'|] eqn:Hd; simpl; [|discriminate].
    rewrite (extract_day_later t1 t2 acc acc' day Hle Hd). simpl. apply IH.
Qed.

(** X2. Normalizing on a later day gives what normalizing on an earlier day
    gave, less the days that have passed in between; if the earlier
    normalization did not raise, the later one does not either. *)
Theorem normalize_later (t1 t2 : Date.date) (schedule : pyval) (m : gmap string (list pyval)) :
  Date.ltb t2 t1 = false ->
  extract_relevant t1 schedule queue = Ok m ->
  extract_relevant t2 schedule queue
  = Ok (filter (fun kv => not_past t2 kv.1 = true) m).
Proof.
  intros Hle. unfold extract_relevant. destruct (iter _) as [days|]; [|discriminate]. simpl.
  intros H. apply (fold_loop_later t1 t2 days ∅ m Hle) in H.
  rewrite map_filter_empty in H. exact H.
Qed.

(** X3. An absent or empty schedule of any type normalizes to the empty
    mapping; a value that is true but not a list raises ([TypeError] for a
    number or [True], [AttributeError] for a string or an object); a list
    raises as soon as one of its elements is not an object. *)
Theorem normalize_odd_shapes (today : Date.date) (schedule : pyval) :
  (truthy schedule = false -> extract_relevant today schedule queue = Ok ∅) /\
  (truthy schedule = true ->
   match schedule with
   | PNone => False
   | PBool _ | PNum _ => extract_relevant today schedule queue = Raise TypeError
   | PStr _ | PDict _ => extract_relevant today schedule queue = Raise AttributeError
   | PList days =>
       (exists day, day ∈ days /\ is_dict day = false) ->
       exists ex, extract_relevant today schedule queue = Raise ex
   end).
Proof.
  split.
  - intros H. unfold extract_relevant, py_or. rewrite H. reflexivity.
  - intros H. unfold extract_relevant, py_or. rewrite H.
    destruct schedule as [|b|q|s|days|kvs]; simpl in *; try reflexivity.
    + discriminate.
    + destruct s; [discriminate|reflexivity].
    + clear H. generalize (∅ : gmap string (list pyval)) as acc.
      intros acc (day & Hin & Hd). revert acc.
      induction days as [|d ds IH]; intros acc; [inversion Hin|].
      simpl. destruct (extract_day today queue acc d) as [acc'|ex] eqn:Hx; simpl; [|eauto].
      apply elem_of_cons in Hin as [->|Hin]; [|apply IH, Hin].
      destruct d; try discriminate; simpl in Hx; discriminate.
    + destruct kvs; [discriminate|reflexivity].
Qed.

End NormalizerMore.

(** ** The effects of one call *)

Section CallEffects.

Variable e : env.
Variable queue : string.

Lemma get_unique (v : pyval) (key : string) (default x : pyval) :
  unique_keys v = true -> unique_keys default = true ->
  get v key default = Ok x -> unique_keys x = true.
Proof.
  destruct v as [| | | | |kvs]; try discriminate. simpl.
  intros [_ Hu]%andb_prop Hd [= <-].
  induction kvs as [|[k v] r IH]; simpl in *; [exact Hd|].
  apply andb_prop in Hu as [Hv Hr]. destruct (String.eqb key k); [exact Hv|apply IH, Hr].
Qed.

Lemma iter_unique (v : pyval) (xs : list pyval) :
  unique_keys v = true -> iter v = Ok xs -> forallb unique_keys xs = true.
Proof.
  destruct v as [| | |s|l|kvs]; try discriminate; simpl; intros Hu [= <-].
  - induction s; simpl; auto.
  - exact Hu.
  - clear Hu. induction kvs; simpl; auto.
Qed.

Lemma simplify_unique (x y : pyval) :
  unique_keys x = true -> simplify x = Ok y -> unique_keys y = true.
Proof.
  intros Hu. unfold simplify.
  destruct (get x "shutdownHours" PNone) as [a|] eqn:Ha; simpl; [|discriminate].
  destruct (get x "from" PNone) as [b|] eqn:Hb; simpl; [|discriminate].
  destruct (get x "to" PNone) as [c|] eqn:Hc; simpl; [|discriminate].
  destruct (get x "status" PNone) as [d|] eqn:Hd; simpl; [|discriminate].
  intros [= <-]. simpl.
  rewrite (get_unique x _ PNone a Hu eq_refl Ha), (get_unique x _ PNone b Hu eq_refl Hb),
    (get_unique x _ PNone c Hu eq_refl Hc), (get_unique x _ PNone d Hu eq_refl Hd).
  reflexivity.
Qed.

Lemma traverse_simplify_unique (xs ys : list pyval) :
  forallb unique_keys xs = true -> traverse simplify xs = Ok ys ->
  forallb unique_keys ys = true.
Proof.
  revert ys. induction xs as [|x xs IH]; simpl; intros ys.
  - intros _ [= <-]. reflexivity.
  - intros [Hx Hxs]%andb_prop.
    destruct (simplify x) as [y|] eqn:Hy; simpl; [|discriminate].
    destruct (traverse simplify xs) as [ys'|] eqn:Hys; simpl; [|discriminate].
    intros [= <-]. simpl. rewrite (simplify_unique x y Hx Hy), (IH ys' Hxs eq_refl).
    reflexivity.
Qed.

Lemma extract_day_unique (today : Date.date) (acc acc' : gmap string (list pyval)) (day : pyval) :
  unique_keys day = true ->
  (forall k v, acc !! k = Some v -> forallb unique_keys v = true) ->
  extract_day today queue acc day = Ok acc' ->
  forall k v, acc' !! k = Some v -> forallb unique_keys v = true.
Proof.
  intros Hu Hacc. unfold extract_day.
  destruct (get day "eventDate" PNone) as [[| | |s| |]|] eqn:He; simpl;
    try discriminate; try (intros [= <-]; exact Hacc).
  destruct (Date.parse s) as [d|]; [|intros [= <-]; exact Hacc].
  destruct (Date.ltb d today); [intros [= <-]; exact Hacc|].
  destruct (get day "queues" (PDict [])) as [qs|] eqn:Hq; simpl; [|discriminate].
  destruct (get qs queue (PList [])) as [qdata|] eqn:Hqd; simpl; [|discriminate].
  destruct (iter qdata) as [xs|] eqn:Hi; simpl; [|discriminate].
  destruct (traverse simplify xs) as [ys|] eqn:Ht; simpl; [|discriminate].
  intros [= <-] k v Hk. destruct (decide (s = k)) as [<-|Hne].
  - rewrite lookup_insert_eq in Hk. injection Hk as <-.
    apply (traverse_simplify_unique xs ys); [|exact Ht].
    apply (iter_unique qdata); [|exact Hi].
    apply (get_unique qs queue (PList []) qdata); [|reflexivity|exact Hqd].
    apply (get_unique day "queues" (PDict []) qs); [exact Hu|reflexivity|exact Hq].
  - rewrite lookup_insert_ne in Hk by exact Hne. eauto.
Qed.

Lemma extract_relevant_unique (today : Date.date) (schedule : pyval) (m : gmap string (list pyval)) :
  unique_keys schedule = true ->
  extract_relevant today schedule queue = Ok m ->
  forall k v, m !! k = Some v -> forallb unique_keys v = true.
Proof.
  intros Hu. unfold extract_relevant.
  destruct (iter (py_or schedule (PList []))) as [days|] eqn:Hi; simpl; [|discriminate].
  assert (Hdays : forallb unique_keys days = true).
  { apply (iter_unique (py_or schedule (PList []))); [|exact Hi].
    unfold py_or. destruct (truthy schedule); [exact Hu|reflexivity]. }
  clear Hi.
  assert (H0 : forall acc, (forall k v, acc !! k = Some v -> forallb unique_keys v = true) ->
            fold_loop (extract_day today queue) days acc = Ok m ->
            forall k v, m !! k = Some v -> forallb unique_keys v = true).
  { induction days as [|day days IH]; intros acc Hacc; simpl.
    - intros [= <-]. exact Hacc.
    - simpl in Hdays. apply andb_prop in Hdays as [Hd Hr].
      destruct (extract_day today queue acc day) as [acc'|] eqn:Hx; simpl; [|discriminate].
      apply (IH Hr acc'). apply (extract_day_unique today acc acc' day Hd Hacc Hx). }
  apply H0. intros k v Hk. rewrite lookup_empty in Hk. discriminate.
Qed.

Lemma dict_eqb_refl (m : gmap string (list pyval)) :
  (forall k v, m !! k = Some v -> forallb unique_keys v = true) ->
  dict_eqb m m = true.
Proof.
  intros H. unfold dict_eqb. rewrite Nat.eqb_refl. simpl.
  apply bool_decide_eq_true. intros k v Hk. rewrite Hk.
  apply (eqb_refl (PList v)). simpl. apply (H k v Hk).
Qed.

End CallEffects.

(** ** The effects of one call *)

Section CallEffects2.

Variable e : env.
Variable queue : string.

(** The outcome printed after a save that follows a message, with what
    the save left. *)
Lemma saved_goes_with (current : pyval) (o : outcome) (l : line) (notes : list notice) :
  current <> PNone ->
  line_outcome l = Some o ->
  (o = Changed /\ truthy current = true) \/ (o = Cancelled /\ truthy current = false) ->
  one_message e queue current notes ->
  goes_with e queue current (outcomes (after_save e queue current [l]))
    (save_leaves e queue current) [(queue, current)] notes.
Proof.
  intros Hcur Hl Ho Hm. rewrite (after_save_outcomes queue e current o l Hl).
  unfold save_raises, save_leaves.
  destruct (storage e (cache_path queue) current) as [|ex|ex] eqn:Hst.
  - destruct Ho as [[-> Ht]|[-> Ht]]; simpl; unfold save_done; auto 8.
  - simpl. split; [exact Hcur|]. right. split; [reflexivity|]. split; [|exact Hm].
    left. auto.
  - simpl. split; [exact Hcur|]. right. split; [reflexivity|]. split; [|exact Hm].
    right. auto.
Qed.

Lemma ignored_goes_with (current : pyval) :
  current <> PNone ->
  truthy current = false ->
  goes_with e queue current (outcomes (LogIgnored queue :: after_save e queue current []))
    (save_leaves e queue current) [(queue, current)] [].
Proof.
  intros Hcur Ht. rewrite outcomes_cons. simpl line_outcome. cbv iota.
  unfold after_save, save_raises, save_leaves.
  destruct (storage e (cache_path queue) current) as [|ex|ex] eqn:Hst; simpl.
  - unfold save_done. auto 8.
  - repeat split; auto. left. auto.
  - repeat split; auto. right. auto.
Qed.

Lemma react_effects (current : pyval) (mc ml : gmap string (list pyval)) (b : bool) :
  current <> PNone ->
  exists left acts logs,
    (forall w, try_except (react e queue current mc ml b) (on_error queue) w
               = (Ok tt, extend (file e queue) left acts logs w)) /\
    goes_with e queue current (outcomes logs) left (cache_writes acts) (notices acts) /\
    (truthy current = true -> dict_eqb mc ml = true -> notices acts = []) /\
    (truthy current = false -> b = true -> notices acts = []).
Proof.
  intros Hcur.
  assert (Hraise : forall ex, (forall w, react e queue current mc ml b w = (Raise ex, w)) ->
            dict_eqb mc ml = false -> truthy current = true ->
            exists left acts logs,
              (forall w, try_except (react e queue current mc ml b) (on_error queue) w
                         = (Ok tt, extend (file e queue) left acts logs w)) /\
              goes_with e queue current (outcomes logs) left (cache_writes acts) (notices acts) /\
              (truthy current = true -> dict_eqb mc ml = true -> notices acts = []) /\
              (truthy current = false -> b = true -> notices acts = [])).
  { intros ex Hr Hd Ht. exists None, [], [LogError queue ex].
    split; [intros w; unfold try_except; rewrite Hr; unfold on_error, print, extend; simpl;
            rewrite app_nil_r; reflexivity|].
    split; [simpl; split; [exact Hcur|left; auto]|]. split; reflexivity. }
  destruct (truthy current) eqn:Ht.
  - destruct (dict_eqb mc ml) eqn:Hd.
    + exists None, [], [LogNoChange queue].
      split; [intros w; rewrite (react_unchanged e queue _ _ _ _ _ Ht Hd); unfold extend; simpl;
              rewrite app_nil_r; reflexivity|].
      split; [simpl; auto|]. split; reflexivity.
    + destruct (iter current) as [days|ex] eqn:Hi.
      * destruct (traverse (build_part queue) days) as [parts|ex] eqn:Hp.
        -- exists (save_leaves e queue current),
             [TelegramPost (MsgChanged queue (QUEUE_NAMES e !! queue) parts);
              CacheWrite queue current],
             (telegram_line (telegram e) :: after_save e queue current [LogChanged queue]).
           split; [intros w; rewrite (react_changed e queue _ _ _ _ _ _ _ Ht Hd Hi Hp);
                   reflexivity|].
           split.
           ++ rewrite outcomes_telegram.
              apply (saved_goes_with current Changed); auto.
              unfold one_message. rewrite Ht. eauto.
           ++ split; intros; discriminate.
        -- apply (Hraise ex); auto. intros w. unfold react. rewrite Ht, Hd. simpl.
           unfold lift, mbind, M_bind, mbind, result_bind, rbind. rewrite Hi, Hp. reflexivity.
      * apply (Hraise ex); auto. intros w. unfold react. rewrite Ht, Hd. simpl.
        unfold lift, mbind, M_bind, mbind, result_bind, rbind. rewrite Hi. reflexivity.
  - destruct b.
    + exists (save_leaves e queue current), [CacheWrite queue current],
        (LogIgnored queue :: after_save e queue current []).
      split; [intros w; rewrite (react_ignored e queue _ _ _ _ Ht); reflexivity|].
      split; [apply ignored_goes_with; auto|]. split; reflexivity.
    + exists (save_leaves e queue current),
        [TelegramPost (MsgCancelled queue (QUEUE_NAMES e !! queue) (clock e AtMessage));
         CacheWrite queue current],
        (telegram_line (telegram e) :: after_save e queue current [LogCancelled queue]).
      split; [intros w; rewrite (react_cancelled e queue _ _ _ _ Ht); reflexivity|].
      split.
      * rewrite outcomes_telegram.
        apply (saved_goes_with current Cancelled); auto.
        unfold one_message. rewrite Ht. reflexivity.
      * split; intros; discriminate.
Qed.

Lemma compare_with_effects (current loaded : pyval) :
  current <> PNone ->
  exists left acts logs,
    (forall w, try_except (compare_with e queue current loaded) (on_error queue) w
               = (Ok tt, extend (file e queue) left acts logs w)) /\
    goes_with e queue current (outcomes logs) left (cache_writes acts) (notices acts) /\
    (forall d, steady e d -> unique_keys current = true -> loaded = current ->
               notices acts = []).
Proof.
  intros Hcur.
  assert (Hraise : forall ex (m : M unit), (forall w, m w = (Raise ex, w)) ->
    exists left acts logs,
      (forall w, try_except m (on_error queue) w
                 = (Ok tt, extend (file e queue) left acts logs w)) /\
      goes_with e queue current (outcomes logs) left (cache_writes acts) (notices acts) /\
      (forall d, steady e d -> unique_keys current = true -> loaded = current ->
                 notices acts = [])).
  { intros ex m Hm. exists None, [], [LogError queue ex].
    split; [intros w; unfold try_except; rewrite Hm; unfold on_error, print, extend; simpl;
            rewrite app_nil_r; reflexivity|].
    split; [simpl; split; [exact Hcur|left; auto]|]. reflexivity. }
  unfold compare_with. cbv zeta.
  destruct (extract_relevant (clock e AtCurrent) current queue) as [mc|ex] eqn:Hmc;
    [|apply (Hraise ex); reflexivity].
  rewrite bind_lift_ok.
  destruct (extract_relevant (clock e AtLast) (py_or loaded (PList [])) queue)
    as [ml|ex] eqn:Hml; [|apply (Hraise ex); reflexivity].
  rewrite bind_lift_ok, (drop_past_extracted queue _ _ _ _ Hml), bind_lift_ok.
  destruct (iter _) as [entries|ex] eqn:Hi; [|apply (Hraise ex); reflexivity].
  rewrite bind_lift_ok.
  destruct (traverse _ entries) as [dates|ex] eqn:Hd; [|apply (Hraise ex); reflexivity].
  rewrite bind_lift_ok.
  destruct (all_past _ 0 dates) as [b|ex] eqn:Hb; [|apply (Hraise ex); reflexivity].
  rewrite bind_lift_ok.
  destruct (react_effects current mc
              (filter (fun kv => not_past (clock e (AtFilter kv.1)) kv.1 = true) ml) b Hcur)
    as (left & acts & logs & H1 & H2 & H3 & H4).
  exists left, acts, logs. split; [exact H1|]. split; [exact H2|].
  intros d Hs Hu ->. destruct (truthy current) eqn:Ht.
  - apply H3; [reflexivity|]. unfold py_or in Hml. rewrite Ht in Hml.
    rewrite (refilter_same_day queue (fun d => clock e (AtFilter d)) _ _ _ Hml)
      by (intros k v _; rewrite !Hs; reflexivity).
    rewrite (Hs AtLast) in Hml. rewrite (Hs AtCurrent) in Hmc.
    rewrite Hmc in Hml. injection Hml as <-.
    apply dict_eqb_refl. apply (extract_relevant_unique queue _ _ _ Hu Hmc).
  - apply H4; [reflexivity|]. unfold py_or in Hi. rewrite Ht in Hi. simpl in Hi.
    injection Hi as <-. simpl in Hd. injection Hd as <-. simpl in Hb.
    injection Hb as <-. reflexivity.
Qed.

Lemma fetch_with_retry_quiet (url : string) (attempts : list nat) (current : pyval) :
  exists v acts logs,
    (forall w, fetch_with_retry e queue url attempts current w
               = (Ok v, extend (file e queue) None acts logs w)) /\
    notices acts = [] /\ cache_writes acts = [] /\ outcomes logs = [].
Proof.
  revert current. induction attempts as [|a rest IH]; intros current.
  - exists current, [], []. split; [|repeat split].
    intros [c a l]. unfold extend. simpl. rewrite !app_nil_r. reflexivity.
  - destruct (fetch_schedule_frame (http e a) url) as (v & logs & Hf).
    assert (Hlogs : outcomes logs = []).
    { pose proof (Hf (mkworld ∅ [] [])) as H0. unfold fetch_schedule in H0.
      destruct (http e a) as [|r]; [injection H0 as _ <-; reflexivity|].
      destruct ((status_code r =? 403) || (status_code r =? 503));
        [injection H0 as _ <-; reflexivity|].
      cbv zeta in H0.
      destruct (negb (contains "application/json" (default "" (content_type r))));
        [injection H0 as _ <-; reflexivity|].
      destruct (json r); injection H0 as _ <-; reflexivity. }
    destruct (is_none v) eqn:Hv.
    + destruct (IH v) as (v' & acts' & logs' & Hr & Hn & Hw & Ho).
      exists v', ([HttpGet url; Sleep 2] ++ acts')%list,
        (logs ++ [LogRetry queue (a + 1)] ++ logs')%list.
      split.
      * intros w. simpl. unfold mbind, M_bind at 1. rewrite Hf, Hv. simpl.
        unfold_m. simpl. rewrite Hr. unfold extend. simpl. rewrite <- !app_assoc. reflexivity.
      * unfold outcomes in *. rewrite !omap_app, Hlogs, Ho. simpl.
        repeat split; assumption.
    + exists v, [HttpGet url], logs. split; [|repeat split; assumption].
      intros w. simpl. unfold mbind, M_bind at 1. rewrite Hf, Hv. reflexivity.
Qed.

Lemma retry_starts_with_get (url : string) (w : world) :
  exists rest,
    actions (fetch_with_retry e queue url (seq 0 3) PNone w).2
    = (actions w ++ HttpGet url :: rest)%list.
Proof.
  destruct (fetch_schedule_frame (http e 0) url) as (v0 & l0 & Hv0).
  simpl seq. rewrite (retry_step e queue url _ _ _ _ _ _ (Hv0 w)).
  destruct (is_none v0); [|exists []; reflexivity].
  destruct (fetch_with_retry_frame e queue url [1%nat; 2%nat] v0) as (v1 & a1 & l1 & H1).
  rewrite H1. simpl. exists (Sleep 2 :: a1). rewrite <- !app_assoc. reflexivity.
Qed.

(** The effects of a call depend on the world only through the cache file
    of the queue. *)
Lemma run_frame (url : string) (before : option cache_file) :
  exists current acts0 logs0 left acts logs,
    notices acts0 = [] /\ cache_writes acts0 = [] /\ outcomes logs0 = [] /\
    (exists rest, acts0 = HttpGet url :: rest) /\
    goes_with e queue current (outcomes logs) left (cache_writes acts) (notices acts) /\
    (forall d, steady e d -> unique_keys current = true ->
               before = Some (Stored current) -> notices acts = []) /\
    (forall ex, before = Some (Unreadable ex) -> notices acts = [] /\ left = None) /\
    forall w, cache w !! file e queue = before ->
      fetch_with_retry e queue url (seq 0 3) PNone w
      = (Ok current, extend (file e queue) None acts0 logs0 w) /\
      run e queue url w
      = extend (file e queue) left acts logs (extend (file e queue) None acts0 logs0 w).
Proof.
  destruct (fetch_with_retry_quiet url (seq 0 3) PNone)
    as (current & acts0 & logs0 & Hf & Hq1 & Hq2 & Hq3).
  exists current, acts0, logs0.
  assert (Hget : exists rest, acts0 = HttpGet url :: rest).
  { destruct (retry_starts_with_get url (mkworld ∅ [] [])) as [rest Hrest].
    rewrite Hf in Hrest. unfold extend in Hrest. simpl in Hrest. eauto. }
  destruct (is_none current) eqn:Hn.
  - exists None, [], [LogGivingUp queue].
    destruct current; try discriminate.
    split; [exact Hq1|]. split; [exact Hq2|]. split; [exact Hq3|]. split; [exact Hget|].
    split; [simpl; auto|]. split; [reflexivity|]. split; [auto|].
    intros w _. split; [apply Hf|].
    rewrite (run_split _ _ _ _ _ _ (Hf w)). simpl. unfold extend. simpl.
    rewrite app_nil_r. reflexivity.
  - assert (Hcur : current <> PNone) by (intros ->; discriminate).
    destruct before as [[data|ex]|].
    + destruct (compare_with_effects current data Hcur) as (left & acts & logs & H1 & H2 & H3).
      exists left, (CacheRead queue :: acts), logs.
      split; [exact Hq1|]. split; [exact Hq2|]. split; [exact Hq3|]. split; [exact Hget|].
      split; [exact H2|].
      split; [intros d Hs Hu [= ->]; apply (H3 d); auto|].
      split; [intros ex0 [=]|].
      intros w Hw. split; [apply Hf|].
      rewrite (run_split _ _ _ _ _ _ (Hf w)), Hn.
      unfold try_except, classify. unfold mbind at 1. unfold M_bind at 1.
      rewrite load_last_run. simpl cache. rewrite Hw.
      match goal with |- context [compare_with e queue current data ?w0] =>
        pose proof (H1 w0) as H1' end.
      unfold try_except in H1'. rewrite H1'. unfold extend. simpl.
      rewrite <- !app_assoc. reflexivity.
    + exists None, [CacheRead queue], [LogError queue ex].
      split; [exact Hq1|]. split; [exact Hq2|]. split; [exact Hq3|]. split; [exact Hget|].
      split; [simpl; split; [exact Hcur|left; auto]|].
      split; [intros d _ _ [=]|]. split; [auto|].
      intros w Hw. split; [apply Hf|].
      rewrite (run_split _ _ _ _ _ _ (Hf w)), Hn.
      unfold try_except, classify. unfold mbind at 1. unfold M_bind at 1.
      rewrite load_last_run. simpl cache. rewrite Hw. unfold extend, on_error, print. simpl.
      rewrite <- ?app_assoc, ?app_nil_r. reflexivity.
    + destruct (compare_with_effects current PNone Hcur) as (left & acts & logs & H1 & H2 & H3).
      exists left, (CacheRead queue :: acts), logs.
      split; [exact Hq1|]. split; [exact Hq2|]. split; [exact Hq3|]. split; [exact Hget|].
      split; [exact H2|].
      split; [intros d _ _ [=]|].
      split; [intros ex0 [=]|].
      intros w Hw. split; [apply Hf|].
      rewrite (run_split _ _ _ _ _ _ (Hf w)), Hn.
      unfold try_except, classify. unfold mbind at 1. unfold M_bind at 1.
      rewrite load_last_run. simpl cache. rewrite Hw.
      match goal with |- context [compare_with e queue current PNone ?w0] =>
        pose proof (H1 w0) as H1' end.
      unfold try_except in H1'. rewrite H1'. unfold extend. simpl.
      rewrite <- !app_assoc. reflexivity.
Qed.

End CallEffects2.

Section CallProperties.

Variable e : env.
Variable queue url : string.

Lemma one_message_inv (current : pyval) (notes : list notice) :
  one_message e queue current notes -> length notes = 1%nat.
Proof.
  unfold one_message. destruct (truthy current); [intros [parts ->]|intros ->]; reflexivity.
Qed.

(** What the table says of any call, whatever it printed. *)
Lemma goes_with_inv (current : pyval) (os : list outcome) (left : option cache_file)
    (writes : list (string * pyval)) (notes : list notice) :
  goes_with e queue current os left writes notes ->
  (length notes <= 1)%nat /\
  (writes = [] \/ writes = [(queue, current)]) /\
  (notes <> [] -> writes = [(queue, current)]) /\
  match left with
  | Some c =>
      (c = Stored current /\ storage e (cache_path queue) current = Written)
      \/ (c = Unreadable JSONDecodeError /\
          exists ex, storage e (cache_path queue) current = Broken ex)
  | None => notes = [] \/ exists ex, storage e (cache_path queue) current = Refused ex
  end.
Proof.
  assert (Hfail : forall ex lft, save_failed e queue current ex lft ->
            match lft with
            | Some c =>
                (c = Stored current /\ storage e (cache_path queue) current = Written)
                \/ (c = Unreadable JSONDecodeError /\
                    exists ex, storage e (cache_path queue) current = Broken ex)
            | None => notes = [] \/ exists ex, storage e (cache_path queue) current = Refused ex
            end).
  { intros ex lft [[Hs ->]|[Hs ->]]; eauto. }
  unfold goes_with, save_done.
  destruct os as [|o1 [|o2 [|o3 os]]]; try contradiction.
  - destruct o1.
    + intros (Ht & Hc & -> & (Hs & ->) & ->). simpl. auto 8.
    + intros (Ht & Hc & -> & (Hs & ->) & Hm). rewrite (one_message_inv _ _ Hm). auto 8.
    + intros (Ht & -> & (Hs & ->) & Hm). rewrite (one_message_inv _ _ Hm). auto 8.
    + intros (Ht & -> & -> & ->). simpl. split; [lia|]. split; [auto|]. split; [congruence|auto].
    + intros (Hc & [(-> & -> & ->)|(-> & Hf & Hm)]).
      * simpl. split; [lia|]. split; [auto|]. split; [congruence|auto].
      * rewrite (one_message_inv _ _ Hm). split; [lia|]. split; [auto|]. split; [auto|].
        apply (Hfail e0), Hf.
    + intros (-> & -> & -> & ->). simpl. split; [lia|]. split; [auto|]. split; [congruence|auto].
  - destruct o1; try contradiction. destruct o2; try contradiction.
    intros (Ht & Hc & -> & Hf & ->). simpl. split; [lia|]. split; [auto|]. split; [congruence|].
    destruct left; [|auto]. apply (Hfail e0 (Some c)), Hf.
  - destruct o1; try contradiction; destruct o2; contradiction.
Qed.


(** X5. A call changes no cache file but the one that the path of its
    queue names: the file of another queue, when its path names another
    file, is after the call what it was before, and reads the same. *)
Theorem other_queues_untouched (w : world) (other : string) :
  file e other <> file e queue ->
  cache (run e queue url w) !! file e other = cache w !! file e other /\
  (load_last e other (run e queue url w)).1 = (load_last e other w).1.
Proof.
  intros Hne.
  destruct (run_frame e queue url (cache w !! file e queue))
    as (current & acts0 & logs0 & left & acts & logs & _ & _ & _ & _ & _ & _ & _ & H).
  destruct (H w eq_refl) as [_ Hr].
  assert (Hc : cache (run e queue url w) !! file e other = cache w !! file e other).
  { rewrite Hr. unfold extend. simpl. destruct left; [|reflexivity].
    apply lookup_insert_ne. congruence. }
  split; [exact Hc|]. rewrite !load_last_run. simpl. rewrite Hc. reflexivity.
Qed.

(** X6. Polling again on the same day with the same replies sends no
    second message, whatever the first call did, unless the first call
    could not open its cache file for writing: a fetched schedule that was
    saved compares equal to itself, a file cut short by a failed save ends
    the second call at the read, and a first call that wrote nothing and
    sent nothing is repeated as it was.  When the save is refused the file
    is as it was, and the second call sends what the first one sent. *)
Theorem second_poll_silent (d : Date.date) (w w1 : world) (current : pyval) :
  steady e d ->
  fetch_with_retry e queue url (seq 0 3) PNone w = (Ok current, w1) ->
  unique_keys current = true ->
  ((forall ex, storage e (cache_path queue) current <> Refused ex) ->
   exists acts,
     actions (run e queue url (run e queue url w))
     = (actions (run e queue url w) ++ acts)%list /\
     notices acts = []) /\
  (forall ex, storage e (cache_path queue) current = Refused ex ->
   notices (new_actions (run e queue url w) (run e queue url (run e queue url w)))
   = notices (new_actions w (run e queue url w))).
Proof.
  intros Hs Hfetch Hu.
  destruct (run_frame e queue url (cache w !! file e queue))
    as (cur & acts0 & logs0 & left & acts & logs & Hn0 & _ & _ & _ & Hg & _ & _ & H).
  destruct (H w eq_refl) as [Hf Hr].
  rewrite Hf in Hfetch. injection Hfetch as -> _.
  set (w' := run e queue url w).
  assert (Hfile : cache w' !! file e queue = file_after left (cache w !! file e queue)).
  { unfold w'. rewrite Hr. unfold extend. simpl.
    destruct left; [apply lookup_insert_eq|reflexivity]. }
  assert (Hfirst : new_actions w w' = (acts0 ++ acts)%list).
  { unfold w', new_actions. rewrite Hr. unfold extend. simpl.
    rewrite <- app_assoc. apply drop_app_length. }
  destruct (goes_with_inv _ _ _ _ _ Hg) as (_ & _ & _ & Hleft).
  destruct left as [c|]; simpl in Hfile.
  - split.
    + intros _.
      destruct (run_frame e queue url (Some c))
        as (cur2 & acts02 & logs02 & left2 & acts2 & logs2 & Hn02 & _ & _ & _ & _ & Hsame
            & Hbad & H2).
      destruct (H2 w' Hfile) as [Hf2 Hr2].
      assert (cur2 = current) as ->.
      { destruct (fetch_with_retry_frame e queue url (seq 0 3) PNone) as (v & a & l & Hv).
        rewrite Hv in Hf, Hf2. congruence. }
      exists (acts02 ++ acts2)%list. split.
      * rewrite Hr2. unfold extend. simpl. rewrite <- app_assoc. reflexivity.
      * unfold notices in *. rewrite omap_app, Hn02. simpl.
        destruct Hleft as [[-> _]|[-> _]]; [apply (Hsame d Hs Hu eq_refl)|].
        apply (Hbad JSONDecodeError eq_refl).
    + intros ex Hex. destruct Hleft as [[_ Hw]|[_ [ex' Hb]]]; congruence.
  - destruct (H w' Hfile) as [_ Hr2].
    assert (Hsecond : new_actions w' (run e queue url w') = (acts0 ++ acts)%list).
    { unfold new_actions. rewrite Hr2. unfold extend. simpl.
      rewrite <- app_assoc. apply drop_app_length. }
    split.
    + intros Hnr. exists (acts0 ++ acts)%list. split.
      * rewrite Hr2. unfold extend. simpl. rewrite <- app_assoc. reflexivity.
      * unfold notices in *. rewrite omap_app, Hn0. simpl.
        destruct Hleft as [Hno|[ex Hex]]; [exact Hno|]. destruct (Hnr ex Hex).
    + intros ex _. rewrite Hsecond, Hfirst. reflexivity.
Qed.

End CallProperties.

Section FirstSight.

Variable e : env.
Variable queue url : string.

Lemma dict_eqb_empty (m : gmap string (list pyval)) :
  dict_eqb m ∅ = true <-> m = ∅.
Proof.
  unfold dict_eqb. split.
  - intros [Hs _]%andb_prop. apply Nat.eqb_eq in Hs. rewrite map_size_empty in Hs.
    apply map_size_empty_iff, Hs.
  - intros ->. rewrite Nat.eqb_refl. simpl. apply bool_decide_eq_true, map_Forall_empty.
Qed.

Lemma keep_days_none (today : Date.date) (days : list pyval) (acc : gmap string (list pyval)) :
  existsb (survives today) days = false ->
  foldl (keep_day today queue) acc days = acc.
Proof.
  revert acc. induction days as [|d ds IH]; intros acc; simpl; [reflexivity|].
  intros [Hd Hr]%orb_false_elim. rewrite IH by exact Hr.
  unfold keep_day. destruct (surviving today d) eqn:Hs; [|reflexivity].
  unfold survives in Hd. apply bool_decide_eq_false in Hd. exfalso. apply Hd.
  rewrite Hs. eauto.
Qed.

Lemma keep_days_some (today : Date.date) (days : list pyval) (acc : gmap string (list pyval)) :
  existsb (survives today) days = true ->
  foldl (keep_day today queue) acc days <> ∅.
Proof.
  intros Hex. apply existsb_exists in Hex as (day & Hin & Hs).
  unfold survives in Hs. apply bool_decide_eq_true in Hs as [s Hs].
  assert (H : forall acc, (is_Some (acc !! s) \/ In day days) ->
            is_Some (foldl (keep_day today queue) acc days !! s)).
  { clear Hin. induction days as [|d ds IH]; intros acc0 [H|H]; simpl; try assumption.
    - inversion H.
    - apply IH. left. unfold keep_day. destruct (surviving today d) as [s'|]; [|exact H].
      destruct (decide (s' = s)) as [->|Hne].
      + rewrite lookup_insert_eq. eauto.
      + rewrite lookup_insert_ne by exact Hne. exact H.
    - apply IH. destruct H as [->|H]; [|auto].
      left. unfold keep_day. rewrite Hs, lookup_insert_eq. eauto. }
  intros Heq. specialize (H acc (or_intror Hin)). rewrite Heq, lookup_empty in H.
  destruct H as [? H]. discriminate H.
Qed.

(** X7. The first poll of a queue (no cache file yet) with a non-empty
    typed schedule: if some entry is dated today or later (at the read of
    the clock that normalizes the fetched schedule) the change message is
    sent and [save_current] is called with the schedule, which creates the
    cache file unless the write raises (then the handler's line is
    printed in place of the outcome); if every entry is past, undated or
    ill-dated, the call reports nothing and creates no cache file. *)
Theorem first_sight (w w1 : world) (days : list pyval) :
  fetch_with_retry e queue url (seq 0 3) PNone w = (Ok (PList days), w1) ->
  days <> [] ->
  typed_schedule queue (PList days) = true ->
  cache w !! file e queue = None ->
  exists parts,
    run e queue url w
    = if existsb (survives (clock e AtCurrent)) days
      then mkworld (saved e queue (PList days) (cache w))
             (actions w1 ++ [CacheRead queue;
                             TelegramPost (MsgChanged queue (QUEUE_NAMES e !! queue) parts);
                             CacheWrite queue (PList days)])
             (stdout w1 ++ telegram_line (telegram e)
                :: after_save e queue (PList days) [LogChanged queue])
      else mkworld (cache w) (actions w1 ++ [CacheRead queue])
             (stdout w1 ++ [LogNoChange queue]).
Proof.
  intros Hf Hne Ht Hc.
  pose proof (typed_normalizable (clock e AtCurrent) queue _ Ht) as Hnc.
  destruct (build_parts_ok queue _ Ht) as [parts Hparts]. exists parts.
  rewrite (run_split _ _ _ _ _ _ Hf). simpl.
  pose proof (fetch_with_retry_cache _ _ _ _ _ _ _ _ Hf) as Hcache.
  assert (Hc1 : cached_last e w1 queue []).
  { right. split; [rewrite Hcache; exact Hc|reflexivity]. }
  rewrite (handled_classify e queue (PList days) [] w1 _ ∅ true Hc1
             (extract_relevant_ok _ _ _ Hnc) eq_refl eq_refl).
  assert (Hr : refiltered e ∅ = ∅) by apply map_filter_empty. rewrite Hr.
  assert (Htr : truthy (PList days) = true) by (destruct days; [contradiction|reflexivity]).
  destruct (existsb _ days) eqn:Hex.
  - assert (Hd : dict_eqb (foldl (keep_day (clock e AtCurrent) queue) ∅ days) ∅ = false).
    { apply not_true_is_false. intros Hd%dict_eqb_empty.
      exact (keep_days_some _ days ∅ Hex Hd). }
    rewrite (react_changed e queue _ days parts _ _ _ _ Htr Hd eq_refl Hparts). simpl.
    rewrite Hcache, <- app_assoc. reflexivity.
  - rewrite (keep_days_none _ days ∅ Hex).
    rewrite (react_unchanged e queue _ _ _ _ _ Htr (proj2 (dict_eqb_empty ∅) eq_refl)).
    simpl. rewrite Hcache. reflexivity.
Qed.

End FirstSight.

Section FetcherMore.

Variable url : string.

(** X8. [fetch_schedule] hands a value to its caller exactly when the
    reply has a status other than 403 and 503, a Content-Type that contains
    [application/json] and a body that decodes; the value is the decoded
    body, whatever the status is otherwise, and nothing is printed. *)
Theorem fetch_returns_body (reply : http_result) (v : pyval) (w : world) :
  v <> PNone ->
  ((fetch_schedule reply url w).1 = Ok v <->
   exists r, reply = Response r /\
     status_code r <> 403 /\ status_code r <> 503 /\
     contains "application/json" (default "" (content_type r)) = true /\
     json r = Some v) /\
  ((fetch_schedule reply url w).1 = Ok v ->
   fetch_schedule reply url w
   = (Ok v, mkworld (cache w) (actions w ++ [HttpGet url]) (stdout w))).
Proof.
  intros Hv. unfold fetch_schedule. destruct reply as [|r].
  - split; [split|]; simpl.
    + intros [= <-]. contradiction.
    + intros (r & Hr & _). discriminate.
    + intros [= <-]. contradiction.
  - cbv zeta.
    destruct (status_code r =? 403) eqn:H403; simpl.
    { split; [split|]; simpl.
      - intros [= <-]. contradiction.
      - intros (r' & [= <-] & Hn & _). apply Z.eqb_eq in H403. contradiction.
      - intros [= <-]. contradiction. }
    destruct (status_code r =? 503) eqn:H503; simpl.
    { split; [split|]; simpl.
      - intros [= <-]. contradiction.
      - intros (r' & [= <-] & _ & Hn & _). apply Z.eqb_eq in H503. contradiction.
      - intros [= <-]. contradiction. }
    apply Z.eqb_neq in H403, H503.
    destruct (contains "application/json" (default "" (content_type r))) eqn:Hc; simpl.
    + destruct (json r) as [v'|] eqn:Hj; simpl.
      * split; [split|].
        -- intros [= <-]. exists r. auto.
        -- intros (r' & [= <-] & _ & _ & _ & Hj'). congruence.
        -- intros [= <-]. reflexivity.
      * split; [split|]; simpl.
        -- intros [= <-]. contradiction.
        -- intros (r' & [= <-] & _ & _ & _ & Hj'). congruence.
        -- intros [= <-]. contradiction.
    + split; [split|]; simpl.
      * intros [= <-]. contradiction.
      * intros (r' & [= <-] & _ & _ & Hc' & _). congruence.
      * intros [= <-]. contradiction.
Qed.

End FetcherMore.

(** ** One turn of the main loop *)

Lemma check_and_alert_ok (e : env) (queue url : string) (w : world) :
  check_and_alert e queue url w = (Ok tt, run e queue url w).
Proof.
  unfold run.
  assert (H : (check_and_alert e queue url w).1 = Ok tt).
  { unfold check_and_alert, try_except.
    match goal with |- context [let (r, w') := ?b in _] =>
      destruct b as [[[]|ex] w1] end; reflexivity. }
  destruct (check_and_alert e queue url w) as [r w']. simpl in *. congruence.
Qed.

Lemma sleep_ok (seconds : Z) (w : world) :
  0 <= seconds <= 9223372036 ->
  sleep seconds w = (Ok tt, mkworld (cache w) (actions w ++ [Sleep seconds]) (stdout w)).
Proof.
  intros H. unfold sleep.
  replace (seconds <? -9223372036) with false by (symmetry; apply Z.ltb_ge; lia).
  replace (9223372036 <? seconds) with false by (symmetry; apply Z.ltb_ge; lia).
  replace (seconds <? 0) with false by (symmetry; apply Z.ltb_ge; lia).
  reflexivity.
Qed.

Lemma sleep_raises (seconds : Z) (w : world) :
  seconds < 0 \/ 9223372036 < seconds ->
  sleep seconds w
  = (Raise (if (seconds <? -9223372036) || (9223372036 <? seconds)
            then OverflowError else ValueError), w).
Proof.
  intros H. unfold sleep.
  destruct ((seconds <? -9223372036) || (9223372036 <? seconds)) eqn:Hover; [reflexivity|].
  apply orb_false_elim in Hover as [_ Hhi%Z.ltb_ge].
  replace (seconds <? 0) with true by (symmetry; apply Z.ltb_lt; lia).
  reflexivity.
Qed.

Section CycleProperties.

Variable c : cycle_env.

Lemma visit_step (queue url : string) (rest : list (string * string)) (w : world) :
  visit c ((queue, url) :: rest) w
  = visit c rest
      (extend (queue_file c queue) None [Sleep 5] [] (run (call_env c queue) queue url w)).
Proof.
  simpl. unfold mbind, M_bind. rewrite check_and_alert_ok. unfold extend, sleep, act. simpl.
  rewrite app_nil_r. reflexivity.
Qed.

Lemma run_segment (queue url : string) (e : env) (w : world) :
  exists seg, actions (run e queue url w) = (actions w ++ seg)%list /\
              own_segment (queue, url) seg.
Proof.
  destruct (run_frame e queue url (cache w !! file e queue))
    as (current & acts0 & logs0 & left & acts & logs & Hn0 & Hw0 & _ & Hget & Hg & _ & _ & H).
  destruct (H w eq_refl) as [Hf Hr].
  destruct (goes_with_inv _ _ _ _ _ _ _ Hg) as (Hone & Hwr & _ & _).
  exists (acts0 ++ acts)%list. split.
  - rewrite Hr. unfold extend. simpl. rewrite <- app_assoc. reflexivity.
  - split; [|split].
    + destruct Hget as [rest ->]. exists (rest ++ acts)%list. reflexivity.
    + unfold notices in *. rewrite omap_app, Hn0. exact Hone.
    + exists current. unfold cache_writes in *. rewrite omap_app, Hw0. exact Hwr.
Qed.

(** X10. In one turn of the main loop no call raises, whatever it meets:
    every queue is visited, in the order of [URLS], and the actions of the
    turn are, queue after queue, the actions of its call (which begin with
    the GET of its URL and hold at most one message and one save) followed
    by the five-second sleep.  Only the sleep that ends the turn can
    raise: for a [CHECK_INTERVAL] that is negative, or too long for the
    clock, it ends [main] after the first turn. *)
Theorem cycle_visits_all (w : world) :
  exists w' segs,
    visit c (URLS c) w = (Ok tt, w') /\
    Forall2 own_segment (URLS c) segs /\
    actions w' = (actions w ++ concat (map (fun seg => seg ++ [Sleep 5]) segs))%list /\
    poll_cycle c w = sleep (CHECK_INTERVAL c) w' /\
    (0 <= CHECK_INTERVAL c <= 9223372036 ->
     poll_cycle c w
     = (Ok tt, mkworld (cache w') (actions w' ++ [Sleep (CHECK_INTERVAL c)]) (stdout w'))) /\
    (CHECK_INTERVAL c < 0 \/ 9223372036 < CHECK_INTERVAL c ->
     exists ex, poll_cycle c w = (Raise ex, w')).
Proof.
  assert (H : forall items w, exists w' segs,
            visit c items w = (Ok tt, w') /\
            Forall2 own_segment items segs /\
            actions w' = (actions w ++ concat (map (fun seg => seg ++ [Sleep 5]) segs))%list).
  { induction items as [|[queue url] rest IH]; intros w0.
    - exists w0, []. simpl. rewrite app_nil_r. repeat split. constructor.
    - rewrite visit_step.
      destruct (run_segment queue url (call_env c queue) w0) as (seg & Hseg & Hown).
      destruct (IH (extend (queue_file c queue) None [Sleep 5] []
                      (run (call_env c queue) queue url w0)))
        as (w' & segs & Hv & Hall & Hacts).
      exists w', (seg :: segs). split; [exact Hv|]. split; [constructor; assumption|].
      rewrite Hacts. unfold extend. simpl. rewrite Hseg, <- !app_assoc. reflexivity. }
  destruct (H (URLS c) w) as (w' & segs & Hv & Hall & Hacts).
  exists w', segs.
  assert (Hp : poll_cycle c w = sleep (CHECK_INTERVAL c) w').
  { unfold poll_cycle, mbind, M_bind. rewrite Hv. reflexivity. }
  split; [exact Hv|]. split; [exact Hall|]. split; [exact Hacts|]. split; [exact Hp|].
  rewrite Hp. split.
  - intros Hok. apply sleep_ok, Hok.
  - intros Hbad. eexists. apply sleep_raises, Hbad.
Qed.

End CycleProperties.

Section CycleIndependence.

Variable c : cycle_env.

Lemma run_alone (queue url : string) (w0 w : world) :
  cache w !! queue_file c queue = cache w0 !! queue_file c queue ->
  exists acts,
    actions (run (call_env c queue) queue url w) = (actions w ++ acts)%list /\
    new_actions w0 (run (call_env c queue) queue url w0) = acts /\
    cache (run (call_env c queue) queue url w) !! queue_file c queue
    = cache (run (call_env c queue) queue url w0) !! queue_file c queue /\
    forall f, f <> queue_file c queue ->
      cache (run (call_env c queue) queue url w) !! f = cache w !! f.
Proof.
  intros Hc.
  destruct (run_frame (call_env c queue) queue url (cache w0 !! queue_file c queue))
    as (current & acts0 & logs0 & left & acts & logs & _ & _ & _ & _ & _ & _ & _ & H).
  destruct (H w Hc) as [_ Hr]. destruct (H w0 eq_refl) as [_ Hr0].
  exists (acts0 ++ acts)%list. rewrite Hr, Hr0. repeat split.
  - unfold extend. simpl. rewrite <- app_assoc. reflexivity.
  - unfold new_actions, extend. simpl. rewrite <- app_assoc. apply drop_app_length.
  - unfold extend, file, queue_file. simpl. destruct left.
    + rewrite !lookup_insert_eq. reflexivity.
    + exact Hc.
  - intros f Hne. unfold extend, file. simpl. destruct left; [|reflexivity].
    apply lookup_insert_ne. unfold queue_file in Hne. simpl. congruence.
Qed.

Lemma visit_independent (items : list (string * string)) (w0 w : world) :
  NoDup (queue_file c <$> items.*1) ->
  (forall q, q ∈ items.*1 -> cache w !! queue_file c q = cache w0 !! queue_file c q) ->
  exists w' acts,
    visit c items w = (Ok tt, w') /\
    actions w' = (actions w ++ acts)%list /\
    notices acts
    = concat (map (fun item =>
                     notices (new_actions w0 (run (call_env c item.1) item.1 item.2 w0)))
                items) /\
    (forall q u, (q, u) ∈ items ->
       cache w' !! queue_file c q = cache (run (call_env c q) q u w0) !! queue_file c q) /\
    (forall f, f ∉ (queue_file c <$> items.*1) -> cache w' !! f = cache w !! f).
Proof.
  revert w. induction items as [|[queue url] rest IH]; intros w Hnd Hsame.
  - exists w, []. simpl. rewrite app_nil_r. repeat split; try reflexivity.
    intros q u Hin. inversion Hin.
  - rewrite visit_step. simpl in Hnd. apply NoDup_cons in Hnd as [Hnotin Hnd].
    destruct (run_alone queue url w0 w) as (acts & Hacts & Hnew & Hown & Hother).
    { apply Hsame. left. }
    set (w1 := extend (queue_file c queue) None [Sleep 5] []
                 (run (call_env c queue) queue url w)).
    assert (Hw1 : forall f, cache w1 !! f = cache (run (call_env c queue) queue url w) !! f).
    { intros f. reflexivity. }
    destruct (IH w1 Hnd) as (w' & acts' & Hv & Hacts' & Hnotes & Hin & Hout).
    { intros q Hq. rewrite Hw1, Hother.
      - apply Hsame. right. exact Hq.
      - intros Heq. apply Hnotin. rewrite <- Heq. apply list_elem_of_fmap. eauto. }
    exists w', (acts ++ [Sleep 5] ++ acts')%list.
    split; [exact Hv|]. split; [|split; [|split]].
    + rewrite Hacts'. unfold w1, extend. simpl. rewrite Hacts, <- !app_assoc. reflexivity.
    + assert (Happ : notices (acts ++ [Sleep 5] ++ acts') = (notices acts ++ notices acts')%list).
      { unfold notices. rewrite !omap_app. reflexivity. }
      rewrite Happ, Hnotes. simpl. rewrite Hnew. reflexivity.
    + intros q u Hq. apply elem_of_cons in Hq as [[= -> ->]|Hq].
      * rewrite (Hout _ Hnotin), Hw1. exact Hown.
      * apply Hin, Hq.
    + intros f Hq. simpl in Hq. apply not_elem_of_cons in Hq as [Hne Hq].
      rewrite (Hout f Hq), Hw1. apply Hother, Hne.
Qed.

(** X11. The queues of one turn do not interfere, as long as their cache
    paths name different files.  After the calls of the turn the cache
    file of every queue is the one its call would have left if made alone
    on the initial world, every other file is unchanged, and the messages
    sent in the turn are, in order, the ones each call would have sent
    alone. *)
Theorem queues_independent (w : world) :
  NoDup (queue_file c <$> (URLS c).*1) ->
  exists r w',
    poll_cycle c w = (r, w') /\
    (forall q u, (q, u) ∈ URLS c ->
       cache w' !! queue_file c q = cache (run (call_env c q) q u w) !! queue_file c q) /\
    (forall f, f ∉ (queue_file c <$> (URLS c).*1) -> cache w' !! f = cache w !! f) /\
    notices (new_actions w w')
    = concat (map (fun item =>
                     notices (new_actions w (run (call_env c item.1) item.1 item.2 w)))
                (URLS c)).
Proof.
  intros Hnd.
  destruct (visit_independent (URLS c) w w Hnd (fun _ _ => eq_refl))
    as (w' & acts & Hv & Hacts & Hnotes & Hin & Hout).
  assert (Hp : poll_cycle c w = sleep (CHECK_INTERVAL c) w').
  { unfold poll_cycle, mbind, M_bind. rewrite Hv. reflexivity. }
  destruct (Z_lt_le_dec (CHECK_INTERVAL c) 0) as [Hneg|Hpos];
    [|destruct (Z_lt_le_dec 9223372036 (CHECK_INTERVAL c)) as [Hbig|Hfit]].
  - eexists _, w'. split; [rewrite Hp; apply sleep_raises; auto|].
    split; [exact Hin|]. split; [exact Hout|].
    unfold new_actions. rewrite Hacts, drop_app_length. exact Hnotes.
  - eexists _, w'. split; [rewrite Hp; apply sleep_raises; auto|].
    split; [exact Hin|]. split; [exact Hout|].
    unfold new_actions. rewrite Hacts, drop_app_length. exact Hnotes.
  - exists (Ok tt), (mkworld (cache w') (actions w' ++ [Sleep (CHECK_INTERVAL c)]) (stdout w')).
    split; [rewrite Hp; apply sleep_ok; lia|].
    split; [exact Hin|]. split; [exact Hout|].
    unfold new_actions. simpl. rewrite Hacts, <- app_assoc, drop_app_length.
    unfold notices in *. rewrite omap_app, Hnotes. simpl. rewrite app_nil_r. reflexivity.
Qed.

End CycleIndependence.

(** ** Configuration *)

Lemma comprehension_started (fld : string) (items : list pyval) (acc : list (pyval * pyval)) :
  (exists d, comprehension fld items acc = Started d) <->
  (forall item, item ∈ items ->
     exists kvs k v, item = PDict kvs /\ assoc "id" kvs = Some k /\
                     assoc fld kvs = Some v /\ hashable k = true).
Proof.
  revert acc. induction items as [|item rest IH]; intros acc; simpl.
  - split; [intros _ item Hin; inversion Hin | eauto].
  - split.
    + intros [d Hd] it Hin.
      destruct item as [| | | | |kvs]; try discriminate. simpl in Hd.
      destruct (assoc "id" kvs) as [k|] eqn:Hk; [|discriminate].
      destruct (assoc fld kvs) as [v|] eqn:Hv; [|discriminate].
      destruct (hashable k) eqn:Hh; [|discriminate].
      apply elem_of_cons in Hin as [->|Hin]; [eauto 8|].
      apply (proj1 (IH (dict_set k v acc))); eauto.
    + intros Hall. destruct (Hall item ltac:(left)) as (kvs & k & v & -> & Hk & Hv & Hh).
      simpl. rewrite Hk, Hv, Hh. apply IH. intros it Hin. apply Hall. right. exact Hin.
Qed.

(** X12. Only a configuration text that is not JSON is recovered (the
    monitor then starts with nothing to monitor).  A text that parses
    starts the monitor exactly when it is a list of complete items
    (objects with ["id"], ["url"] and ["name"], the id a scalar) or an
    empty object or string; anything else, a missing key included, ends
    the process at import. *)
Theorem configure_starts (parsed : option pyval) :
  (parsed = None -> configure parsed = Started ([], [])) /\
  (forall v, parsed = Some v ->
     ((exists cfg, configure parsed = Started cfg) <->
      match v with
      | PList items => forallb complete items = true
      | PDict kvs => kvs = []
      | PStr s => s = ""
      | _ => False
      end)).
Proof.
  split; [intros ->; reflexivity|].
  intros v ->. unfold configure. cbv zeta.
  destruct v as [| b | q | s | items | kvs]; simpl.
  - split; [intros [cfg H]; discriminate | contradiction].
  - split; [intros [cfg H]; discriminate | contradiction].
  - split; [intros [cfg H]; discriminate | contradiction].
  - destruct s as [|ch s]; simpl; [split; eauto|].
    split; [intros [cfg H]; discriminate | discriminate].
  - split.
    + intros [cfg H].
      destruct (comprehension "url" items []) as [urls|] eqn:Hu; [|discriminate].
      destruct (comprehension "name" items []) as [nms|] eqn:Hn; [|discriminate].
      apply forallb_forall. intros item Hin. apply list_elem_of_In in Hin.
      destruct (proj1 (comprehension_started "url" items [])
                  (ex_intro _ urls Hu) item Hin) as (kvs & k & u & -> & Hk & Hurl & Hh).
      destruct (proj1 (comprehension_started "name" items [])
                  (ex_intro _ nms Hn) (PDict kvs) Hin) as (kvs' & k' & n & [= <-] & _ & Hname & _).
      simpl. rewrite Hk, Hurl, Hname. exact Hh.
    + intros Hall. rewrite forallb_forall in Hall.
      assert (Hfld : forall fld, (fld = "url" \/ fld = "name") ->
                exists d, comprehension fld items [] = Started d).
      { intros fld Hf. apply comprehension_started.
        intros item Hin. apply list_elem_of_In in Hin. specialize (Hall item Hin).
        destruct item as [| | | | |kvs]; try discriminate. simpl in Hall.
        destruct (assoc "id" kvs) as [k|] eqn:Hk; [|discriminate].
        destruct (assoc "url" kvs) as [u|] eqn:Hu; [|discriminate].
        destruct (assoc "name" kvs) as [n|] eqn:Hn; [|discriminate].
        destruct Hf as [-> | ->]; [exists kvs, k, u|exists kvs, k, n]; auto. }
      destruct (Hfld "url" (or_introl eq_refl)) as [urls ->].
      destruct (Hfld "name" (or_intror eq_refl)) as [nms ->]. eauto.
  - destruct kvs as [|[k v] kvs]; simpl; [split; eauto|].
    split; [intros [cfg H]; discriminate | discriminate].
Qed.

Section ConfigLookup.

Lemma dict_set_keys (k v : pyval) (d : list (pyval * pyval)) :
  map fst (dict_set k v d) = key_add k (map fst d).
Proof.
  unfold key_add. induction d as [|[k' v'] r IH]; [reflexivity|].
  cbn [dict_set map existsb fst].
  destruct (Py.eqb k k'); cbn [map fst orb]; [reflexivity|]. rewrite IH.
  destruct (existsb (Py.eqb k) (map fst r)); reflexivity.
Qed.

Lemma comprehension_keys (fld : string) (items : list pyval) (acc d : list (pyval * pyval)) :
  comprehension fld items acc = Started d ->
  map fst d = foldl (fun ks item => key_add (item_id item) ks) (map fst acc) items.
Proof.
  revert acc. induction items as [|item rest IH]; intros acc; simpl.
  - intros [= <-]. reflexivity.
  - destruct item as [| | | | |kvs]; try discriminate. simpl.
    unfold item_id, field. simpl.
    destruct (assoc "id" kvs) as [k|]; [|discriminate].
    destruct (assoc fld kvs) as [v|]; [|discriminate].
    destruct (hashable k); [|discriminate].
    intros H. rewrite (IH _ H), dict_set_keys. reflexivity.
Qed.

Lemma eqb_str_inv (s : string) (k : pyval) : Py.eqb (PStr s) k = true -> k = PStr s.
Proof.
  destruct k; try discriminate. simpl. intros H%String.eqb_eq. congruence.
Qed.

Lemma eqb_str_inv_l (s : string) (k : pyval) : Py.eqb k (PStr s) = true -> k = PStr s.
Proof.
  destruct k; try discriminate. simpl. intros H%String.eqb_eq. congruence.
Qed.

Lemma dict_get_set_eq (s : string) (v : pyval) (d : list (pyval * pyval)) :
  dict_get (PStr s) (dict_set (PStr s) v d) = Some v.
Proof.
  induction d as [|[k' v'] r IH]; cbn [dict_set dict_get].
  - simpl. rewrite String.eqb_refl. reflexivity.
  - destruct (Py.eqb (PStr s) k') eqn:He; cbn [dict_get]; rewrite He; [reflexivity|exact IH].
Qed.

Lemma dict_get_set_ne (s : string) (k v : pyval) (d : list (pyval * pyval)) :
  k <> PStr s -> dict_get (PStr s) (dict_set k v d) = dict_get (PStr s) d.
Proof.
  intros Hne. induction d as [|[k' v'] r IH]; cbn [dict_set dict_get].
  - destruct (Py.eqb (PStr s) k) eqn:He; [|reflexivity].
    apply eqb_str_inv in He. contradiction.
  - destruct (Py.eqb k k') eqn:Hk; cbn [dict_get].
    + destruct (Py.eqb (PStr s) k') eqn:He; [|reflexivity].
      apply eqb_str_inv in He. subst k'. apply eqb_str_inv_l in Hk. contradiction.
    + rewrite IH. reflexivity.
Qed.

Lemma comprehension_other (fld : string) (s : string) (items : list pyval)
    (acc d : list (pyval * pyval)) :
  comprehension fld items acc = Started d ->
  (forall item, item ∈ items -> item_id item <> PStr s) ->
  dict_get (PStr s) d = dict_get (PStr s) acc.
Proof.
  revert acc. induction items as [|item rest IH]; intros acc; simpl.
  - intros [= <-] _. reflexivity.
  - intros H Hall. pose proof (Hall item ltac:(left)) as Hid.
    destruct item as [| | | | |kvs]; try discriminate. simpl in H.
    unfold item_id, field in Hid. simpl in Hid.
    destruct (assoc "id" kvs) as [k|]; [|discriminate].
    destruct (assoc fld kvs) as [v|]; [|discriminate].
    destruct (hashable k); [|discriminate].
    rewrite (IH _ H) by (intros it Hin; apply Hall; right; exact Hin).
    apply dict_get_set_ne. exact Hid.
Qed.

Lemma comprehension_last (fld : string) (s : string) (items : list pyval)
    (acc d : list (pyval * pyval)) (i : nat) (item : pyval) :
  comprehension fld items acc = Started d ->
  items !! i = Some item ->
  item_id item = PStr s ->
  (forall (j : nat) item', (i < j)%nat -> items !! j = Some item' -> item_id item' <> PStr s) ->
  dict_get (PStr s) d = Some (field item fld).
Proof.
  revert acc i. induction items as [|it rest IH]; intros acc i H Hi Hid Hlater; [discriminate|].
  simpl in H. destruct it as [| | | | |kvs]; try discriminate. simpl in H.
  destruct (assoc "id" kvs) as [k|] eqn:Hk; [|discriminate].
  destruct (assoc fld kvs) as [v|] eqn:Hv; [|discriminate].
  destruct (hashable k); [|discriminate].
  destruct i as [|i]; simpl in Hi.
  - injection Hi as <-. unfold item_id, field in Hid. simpl in Hid. rewrite Hk in Hid.
    simpl in Hid. subst k.
    rewrite (comprehension_other fld s rest _ d H).
    + rewrite dict_get_set_eq. unfold field. simpl. rewrite Hv. reflexivity.
    + intros it' [j Hj]%list_elem_of_lookup. apply (Hlater (S j)); [lia|exact Hj].
  - apply (IH _ i H Hi Hid). intros j it' Hlt Hj. apply (Hlater (S j)); [lia|exact Hj].
Qed.

(** X13. When the configuration loads, [URLS] and [QUEUE_NAMES] hold the
    same ids in the same order, and an id given by several items keeps the
    url and the name of the last of them. *)
Theorem configured_lookup (items : list pyval) (urls nms : list (pyval * pyval))
    (i : nat) (item : pyval) (id : string) :
  configure (Some (PList items)) = Started (urls, nms) ->
  items !! i = Some item ->
  item_id item = PStr id ->
  (forall (j : nat) item', (i < j)%nat -> items !! j = Some item' -> item_id item' <> PStr id) ->
  map fst urls = map fst nms /\
  dict_get (PStr id) urls = Some (field item "url") /\
  dict_get (PStr id) nms = Some (field item "name").
Proof.
  unfold configure. simpl.
  destruct (comprehension "url" items []) as [u|] eqn:Hu; [|discriminate].
  destruct (comprehension "name" items []) as [n|] eqn:Hn; [|discriminate].
  intros [= <- <-] Hi Hid Hlater. split; [|split].
  - rewrite (comprehension_keys _ _ _ _ Hu), (comprehension_keys _ _ _ _ Hn). reflexivity.
  - apply (comprehension_last "url" id items [] u i item Hu Hi Hid Hlater).
  - apply (comprehension_last "name" id items [] n i item Hn Hi Hid Hlater).
Qed.

End ConfigLookup.

(** ** What is reported, and what is not *)

Section Reports.

Variable e : env.
Variable queue url : string.

Lemma traverse_outage_lines_spec (xs : list pyval) :
  forallb is_dict xs = true ->
  traverse outage_line xs = Ok (map (fun x => (shown x "from", shown x "to")) xs).
Proof.
  induction xs as [|x xs IH]; simpl; [reflexivity|].
  intros [Hx Hxs]%andb_prop. destruct x as [| | | | |kvs]; try discriminate.
  simpl. rewrite (IH Hxs). simpl.
  destruct (assoc "from" kvs), (assoc "to" kvs); reflexivity.
Qed.

Lemma build_parts_spec (days : list pyval) :
  typed_schedule queue (PList days) = true ->
  traverse (build_part queue) days = Ok (map (day_part queue) days).
Proof.
  simpl. induction days as [|d ds IH]; simpl; [reflexivity|].
  intros [[Hd Hq]%andb_prop Hr]%andb_prop. rewrite (IH Hr).
  destruct d as [| | | | |kvs]; try discriminate.
  unfold build_part, day_part, shown. simpl in *.
  destruct (assoc "queues" kvs) as [[| | | | |qs]|]; try discriminate; simpl.
  - destruct (assoc queue qs) as [[| | | |xs|]|]; try discriminate; simpl.
    + destruct xs as [|x xs]; simpl.
      * destruct (assoc "eventDate" kvs), (assoc "scheduleApprovedSince" kvs); reflexivity.
      * pose proof (traverse_outage_lines_spec (x :: xs) Hq) as Hl. simpl in Hl.
        rewrite Hl. simpl.
        destruct (assoc "eventDate" kvs), (assoc "scheduleApprovedSince" kvs); reflexivity.
    + destruct (assoc "eventDate" kvs), (assoc "scheduleApprovedSince" kvs); reflexivity.
  - destruct (assoc "eventDate" kvs), (assoc "scheduleApprovedSince" kvs); reflexivity.
Qed.



(** X14. A change message has one block per day of the fetched schedule,
    in the order fetched, past and undated days included: the date and the
    approval time (["?"] when absent) and the [from]-[to] pairs of the
    queue, or the no-outages text for a day where the queue has no
    interval. *)
Theorem changed_message (w w1 : world) (days entries : list pyval)
    (mc ml : gmap string (list pyval)) (b : bool) :
  fetch_with_retry e queue url (seq 0 3) PNone w = (Ok (PList days), w1) ->
  days <> [] ->
  typed_schedule queue (PList days) = true ->
  cached_last e w queue entries ->
  all_past (scan_clock e) 0 (map event_date entries) = Ok b ->
  extract_relevant (clock e AtCurrent) (PList days) queue = Ok mc ->
  extract_relevant (clock e AtLast) (PList entries) queue = Ok ml ->
  dict_eqb mc (refiltered e ml) = false ->
  notices (new_actions w1 (run e queue url w))
  = [ChangedNotice queue (map (day_part queue) days)].
Proof.
  intros Hf Hne Ht Hc Hb Hmc Hml Hd.
  rewrite (run_split _ _ _ _ _ _ Hf). simpl.
  pose proof (fetch_with_retry_cache _ _ _ _ _ _ _ _ Hf) as Hcache.
  assert (Hc1 : cached_last e w1 queue entries) by (unfold cached_last; rewrite Hcache; exact Hc).
  rewrite (handled_classify e queue (PList days) entries w1 mc ml b Hc1 Hmc Hml Hb).
  assert (Htr : truthy (PList days) = true) by (destruct days; [contradiction|reflexivity]).
  rewrite (react_changed e queue _ days _ _ _ _ _ Htr Hd eq_refl (build_parts_spec days Ht)).
  unfold new_actions. simpl. rewrite <- app_assoc, drop_app_length. reflexivity.
Qed.


End Reports.

(** ** Instances *)

Import Sample2.

Lemma refilter_is_identity_witness :
  match extract_relevant (jan 11)
          (PList [iso_dated; yesterday; morning; later; eastern_dated]) "Q" with
  | Ok m =>
      drop_past (fun _ => jan 11) m = Ok m /\
      drop_past (fun _ => jan 13) m
      = Ok (filter (fun kv => not_past (jan 13) kv.1 = true) m)
  | Raise _ => False
  end.
Proof.
  destruct (extract_relevant (jan 11)
              (PList [iso_dated; yesterday; morning; later; eastern_dated]) "Q")
    as [m|ex] eqn:H.
  - split.
    + exact (proj2 (proj2 (refilter_is_identity "Q" _ (fun _ => jan 11) _ _ H))
               (fun _ => eq_refl)).
    + exact (proj1 (proj2 (refilter_is_identity "Q" _ (fun _ => jan 13) _ _ H))).
  - vm_compute in H. discriminate H.
Defined.

Lemma normalize_later_witness :
  match extract_relevant (jan 11) (PList [yesterday; morning; later]) "Q" with
  | Ok m =>
      extract_relevant (jan 13) (PList [yesterday; morning; later]) "Q"
      = Ok (filter (fun kv => not_past (jan 13) kv.1 = true) m)
  | Raise _ => False
  end.
Proof.
  destruct (extract_relevant (jan 11) (PList [yesterday; morning; later]) "Q")
    as [m|ex] eqn:H.
  - exact (normalize_later "Q" (jan 11) (jan 13) _ m eq_refl H).
  - vm_compute in H. discriminate H.
Defined.

Lemma normalize_odd_shapes_witness :
  extract_relevant (jan 11) (PDict []) "Q" = Ok ∅ /\
  extract_relevant (jan 11) error_body "Q" = Raise AttributeError.
Proof.
  split.
  - exact (proj1 (normalize_odd_shapes "Q" (jan 11) (PDict [])) eq_refl).
  - exact (proj2 (normalize_odd_shapes "Q" (jan 11) error_body) eq_refl).
Defined.

Lemma other_queues_untouched_witness :
  cache (run (serving (PList [revised]) (jan 11)) "Q" "u" (busy (PList [morning])))
    !! "cache/R.json"
  = Some (Stored (PList [])).
Proof.
  destruct (other_queues_untouched (serving (PList [revised]) (jan 11)) "Q" "u"
              (busy (PList [morning])) "R") as [H _].
  - discriminate.
  - exact H.
Defined.

Lemma second_poll_silent_witness :
  exists acts,
    actions (run (cut_short (PList [revised]) (jan 11)) "Q" "u"
               (run (cut_short (PList [revised]) (jan 11)) "Q" "u" (holding (PList [morning]))))
    = (actions (run (cut_short (PList [revised]) (jan 11)) "Q" "u" (holding (PList [morning])))
       ++ acts)%list /\
    notices acts = [].
Proof.
  destruct (second_poll_silent (cut_short (PList [revised]) (jan 11)) "Q" "u" (jan 11)
              (holding (PList [morning]))
              (mkworld {["cache/Q.json" := Stored (PList [morning])]} [HttpGet "u"] [])
              (PList [revised])) as [H _]; try reflexivity.
  - intros r. reflexivity.
  - apply H. intros ex. discriminate.
Defined.

Lemma first_sight_witness :
  exists parts,
    run (serving (PList [yesterday; morning]) (jan 11)) "Q" "u" fresh
    = mkworld {["cache/Q.json" := Stored (PList [yesterday; morning])]}
        [HttpGet "u"; CacheRead "Q"; TelegramPost (MsgChanged "Q" None parts);
         CacheWrite "Q" (PList [yesterday; morning])]
        [LogTelegramSent; LogChanged "Q"].
Proof.
  destruct (first_sight (serving (PList [yesterday; morning]) (jan 11)) "Q" "u" fresh
              (mkworld ∅ [HttpGet "u"] []) [yesterday; morning]) as [parts H];
    try reflexivity; [discriminate|].
  exists parts. rewrite H. reflexivity.
Defined.

Lemma fetch_returns_body_witness :
  fetch_schedule (Response (mkresponse 500 (Some "application/json") "[]" (Some (PList []))))
    "u" fresh
  = (Ok (PList []), mkworld ∅ [HttpGet "u"] []).
Proof.
  apply (proj2 (fetch_returns_body "u"
                  (Response (mkresponse 500 (Some "application/json") "[]" (Some (PList []))))
                  (PList []) fresh ltac:(discriminate))).
  reflexivity.
Defined.

Lemma queues_independent_witness :
  exists r w',
    poll_cycle (two_queues 300) (holding (PList [morning])) = (r, w') /\
    cache w' !! "cache/Q.json" = Some (Stored (PList [morning])) /\
    cache w' !! "cache/R.json" = None.
Proof.
  destruct (queues_independent (two_queues 300) (holding (PList [morning])))
    as (r & w' & Hc & Hin & _).
  - simpl. apply (bool_decide_unpack _). vm_compute. exact I.
  - exists r, w'. split; [exact Hc|]. split.
    + pose proof (Hin "Q" "https://be-svitlo.oe.if.ua/q" ltac:(simpl; left)) as HQ.
      change (queue_file (two_queues 300) "Q") with "cache/Q.json" in HQ.
      rewrite HQ. reflexivity.
    + pose proof (Hin "R" "https://be-svitlo.oe.if.ua/r" ltac:(simpl; right; left)) as HR.
      change (queue_file (two_queues 300) "R") with "cache/R.json" in HR.
      rewrite HR. reflexivity.
Defined.

(** A negative [CHECK_INTERVAL] ends [main] at the end of the first turn,
    after both queues were visited. *)
Example negative_interval :
  exists w',
    poll_cycle (two_queues (-1)) (holding (PList [morning])) = (Raise ValueError, w') /\
    cache_writes (actions w') = [] /\
    outcomes (stdout w') = [Unchanged; GaveUp].
Proof. eexists. split; [vm_compute; reflexivity|]. split; vm_compute; reflexivity. Qed.

Lemma configure_starts_witness :
  (exists cfg, configure (Some (PList config_twice)) = Started cfg) /\
  ~ (exists cfg, configure (Some (PList [PDict [("id", PStr "4.2"); ("url", PStr "u")]]))
                 = Started cfg).
Proof.
  split.
  - apply (proj2 (configure_starts (Some (PList config_twice))) (PList config_twice) eq_refl).
    reflexivity.
  - intros H.
    apply (proj2 (configure_starts _) _ eq_refl) in H. discriminate H.
Defined.

Lemma configured_lookup_witness :
  match configure (Some (PList config_twice)) with
  | Started (urls, nms) =>
      dict_get (PStr "4.2") urls = Some (PStr "https://new") /\
      dict_get (PStr "4.2") nms = Some (PStr "New") /\
      map fst urls = [PStr "4.2"; PStr "5.1"]
  | Crashed _ => False
  end.
Proof.
  destruct (configure (Some (PList config_twice))) as [[urls nms]|ex] eqn:H.
  - destruct (configured_lookup config_twice urls nms 2 (config_item "4.2" "New" "https://new")
                "4.2" H eq_refl eq_refl) as (Hk & Hu & Hn).
    + intros j item' Hlt Hj. destruct j as [|[|[|j]]]; try lia. discriminate Hj.
    + split; [exact Hu|]. split; [exact Hn|].
      vm_compute in H. injection H as Hurls _. rewrite <- Hurls. reflexivity.
  - vm_compute in H. discriminate H.
Defined.

Lemma changed_message_witness :
  notices (new_actions (mkworld {["cache/Q.json" := Stored (PList [morning])]} [HttpGet "u"] [])
             (run (serving (PList [yesterday; revised]) (jan 11)) "Q" "u"
                (holding (PList [morning]))))
  = [ChangedNotice "Q" [day_part "Q" yesterday; day_part "Q" revised]].
Proof.
  eapply (changed_message (serving (PList [yesterday; revised]) (jan 11)) "Q" "u"
            (holding (PList [morning])) _ [yesterday; revised] [morning] _ _ false);
    try reflexivity; [discriminate | left; reflexivity].
Defined.

